(** * HTTP/2 connection handling of libmicrohttpd (mhd-http2)

    A shallow embedding of [microhttpd/http2/h2_connection.c] and of the
    32-bit big-endian helpers of [microhttpd/mhd_bithelpers.h], with the
    properties of the connection engine stated and proved over it.

    Conventions.
    - A byte is a [Z] in [0, 256); a buffer is a [list Z] addressed by index.
    - [size_t] and [ssize_t] are 64 bits wide; unsigned arithmetic wraps and
      the wrap-around is written out ([size_add], [size_sub]).
    - A pointer that may be [NULL] is an [option].
    - Functions of the library that live in other files (the socket
      primitives, the memory pool, nghttp2, the header-block builder) are
      gathered in the record [Collaborators]: one value of that record holds
      the answers they give during one invocation of a phase.
    - [mhd_assert] is compiled out of release builds and is not modelled,
      except for [h2 != NULL] in [h2_queue_response], which guards the
      dereference that follows it.  Debug output and the epoll update that
      follows each assignment of [event_loop_info] are left out. *)

From Stdlib Require Import ZArith Lia String Ascii Bool.
From stdpp Require Import base option list gmap.

Open Scope Z_scope.

(** ** Machine integers *)

Definition SIZE_WIDTH : Z := 64.
Definition SIZE_MODULUS : Z := 2 ^ SIZE_WIDTH.

(** [(size_t) x] *)
Definition to_size (x : Z) : Z := x mod SIZE_MODULUS.

(** [(ssize_t) x] for an [x] already reduced to [size_t] *)
Definition to_ssize (x : Z) : Z :=
  if x <? 2 ^ (SIZE_WIDTH - 1) then x else x - SIZE_MODULUS.

Definition size_add (a b : Z) : Z := to_size (a + b).
Definition size_sub (a b : Z) : Z := to_size (a - b).

(** [(uint8_t) x] and [(uint32_t) x] *)
Definition uint8_t (x : Z) : Z := Z.land x 255.
Definition uint32_t (x : Z) : Z := Z.land x 4294967295.

(** ** mhd_bithelpers.h: 32-bit big-endian put and get *)

(** The values [_MHD_BYTE_ORDER] can take (mhd_byteorder.h). *)
Inductive byte_order : Set :=
| _MHD_BIG_ENDIAN
| _MHD_LITTLE_ENDIAN
| _MHD_PDP_ENDIAN.

Global Instance byte_order_eq_dec : EqDecision byte_order.
Proof. solve_decision. Defined.

(** [((uint8_t* )(addr))[i] = b]; [None] when the access leaves the object. *)
Definition store_uint8 (mem : list Z) (addr i : nat) (b : Z) : option (list Z) :=
  if decide (addr + i < length mem)%nat
  then Some (<[(addr + i)%nat := uint8_t b]> mem)
  else None.

(** [((uint8_t* )(addr))[i]] *)
Definition load_uint8 (mem : list Z) (addr i : nat) : option Z :=
  mem !! (addr + i)%nat.

(** The four bytes of a 32-bit value in the order in which a host of the
    given byte order lays them out in memory, lowest address first. *)
Definition native_layout (host : byte_order) (v : Z) : list Z :=
  match host with
  | _MHD_BIG_ENDIAN =>
      [Z.shiftr v 24; Z.shiftr v 16; Z.shiftr v 8; v]
  | _MHD_LITTLE_ENDIAN =>
      [v; Z.shiftr v 8; Z.shiftr v 16; Z.shiftr v 24]
  | _MHD_PDP_ENDIAN =>
      [Z.shiftr v 16; Z.shiftr v 24; v; Z.shiftr v 8]
  end.

(** [*(uint32_t* )(addr) = v] on the given host. *)
Definition store_uint32_native (host : byte_order) (mem : list Z) (addr : nat)
    (v : Z) : option (list Z) :=
  match native_layout host v with
  | [b0; b1; b2; b3] =>
      mem ← store_uint8 mem addr 0 b0;
      mem ← store_uint8 mem addr 1 b1;
      mem ← store_uint8 mem addr 2 b2;
      store_uint8 mem addr 3 b3
  | _ => None
  end.

(** [*(uint32_t* )(addr)] on the given host. *)
Definition load_uint32_native (host : byte_order) (mem : list Z) (addr : nat)
    : option Z :=
  b0 ← load_uint8 mem addr 0;
  b1 ← load_uint8 mem addr 1;
  b2 ← load_uint8 mem addr 2;
  b3 ← load_uint8 mem addr 3;
  Some match host with
       | _MHD_BIG_ENDIAN =>
           Z.lor (Z.lor (Z.lor (Z.shiftl b0 24) (Z.shiftl b1 16)) (Z.shiftl b2 8)) b3
       | _MHD_LITTLE_ENDIAN =>
           Z.lor (Z.lor (Z.lor (Z.shiftl b3 24) (Z.shiftl b2 16)) (Z.shiftl b1 8)) b0
       | _MHD_PDP_ENDIAN =>
           Z.lor (Z.lor (Z.lor (Z.shiftl b1 24) (Z.shiftl b0 16)) (Z.shiftl b3 8)) b2
       end.

(** [_MHD_PUT_32BIT_BE (addr, value32)]: a plain store on a big-endian host,
    four byte stores (index 3 first) on any other. *)
Definition _MHD_PUT_32BIT_BE (host : byte_order) (mem : list Z) (addr : nat)
    (value32 : Z) : option (list Z) :=
  if decide (host = _MHD_BIG_ENDIAN)
  then store_uint32_native host mem addr (uint32_t value32)
  else
    mem ← store_uint8 mem addr 3 (uint32_t value32);
    mem ← store_uint8 mem addr 2 (Z.shiftr (uint32_t value32) 8);
    mem ← store_uint8 mem addr 1 (Z.shiftr (uint32_t value32) 16);
    store_uint8 mem addr 0 (Z.shiftr (uint32_t value32) 24).

(** [_MHD_GET_32BIT_BE (addr)]: a plain load on a big-endian host, four byte
    loads shifted into place on any other. *)
Definition _MHD_GET_32BIT_BE (host : byte_order) (mem : list Z) (addr : nat)
    : option Z :=
  if decide (host = _MHD_BIG_ENDIAN)
  then load_uint32_native host mem addr
  else
    b0 ← load_uint8 mem addr 0;
    b1 ← load_uint8 mem addr 1;
    b2 ← load_uint8 mem addr 2;
    b3 ← load_uint8 mem addr 3;
    Some (uint32_t
            (Z.lor (Z.lor (Z.lor (Z.shiftl (uint32_t b0) 24)
                                 (Z.shiftl (uint32_t b1) 16))
                          (Z.shiftl (uint32_t b2) 8))
                   (uint32_t b3))).

(** ** Constants of the public and internal headers *)

Definition MHD_YES : Z := 1.
Definition MHD_NO : Z := 0.

Definition MHD_HTTP_OK : Z := 200.
Definition MHD_HTTP_NO_CONTENT : Z := 204.
Definition MHD_HTTP_NOT_MODIFIED : Z := 304.
Definition MHD_HTTP_METHOD_HEAD : string := "HEAD".

(** Modelled from the spec: the sentinels of the socket primitives are
    declared in a header that is not part of these files.  They are negative,
    pairwise distinct and never a byte count; the values are those of
    libmicrohttpd. *)
Definition MHD_ERR_AGAIN_ : Z := -3073.
Definition MHD_ERR_CONNRESET_ : Z := -3074.

(** nghttp2.h *)
Definition NGHTTP2_FLAG_NONE : Z := 0.
Definition NGHTTP2_PROTOCOL_ERROR : Z := 1.
Definition NGHTTP2_ERR_BAD_CLIENT_MAGIC : Z := -903.

Definition H2_MAGIC_TOKEN_LEN_MIN : Z := 16.
Definition H2_MAGIC_TOKEN_LEN : Z := 24.

Definition CRLF : string := String "013" (String "010" EmptyString).
Definition LF : string := String "010" EmptyString.

Fixpoint bytes_of_string (s : string) : list Z :=
  match s with
  | EmptyString => []
  | String c s' => Z.of_N (N_of_ascii c) :: bytes_of_string s'
  end.

(** ["PRI * HTTP/2.0\r\n\r\nSM\r\n\r\n"] *)
Definition H2_MAGIC_TOKEN : list Z :=
  bytes_of_string ("PRI * HTTP/2.0" ++ CRLF ++ CRLF ++ "SM" ++ CRLF ++ CRLF).

(** [!x] of C *)
Definition lnot (x : Z) : Z := if x =? 0 then 1 else 0.

(** [memcmp (s1, s2, n)]: zero when the first [n] bytes agree, otherwise the
    difference of the first pair of bytes that differ; [None] when the
    comparison would read past the end of one of the objects. *)
Fixpoint memcmp (s1 s2 : list Z) (n : nat) {struct n} : option Z :=
  match n with
  | O => Some 0
  | S n' =>
      match s1, s2 with
      | a :: s1', b :: s2' =>
          if a =? b then memcmp s1' s2' n' else Some (a - b)
      | _, _ => None
      end
  end.

(** ** Data model *)

(** Modelled from the spec: [enum MHD_CONNECTION_STATE] is declared in
    internal.h, which is not part of these files; the code at hand only tells
    [MHD_CONNECTION_CLOSED] from the rest.  The specification names the
    lifecycle states Active, Closing and Closed. *)
Inductive MHD_CONNECTION_STATE : Set :=
| MHD_CONNECTION_ACTIVE
| MHD_CONNECTION_CLOSING
| MHD_CONNECTION_CLOSED.

Global Instance MHD_CONNECTION_STATE_eq_dec : EqDecision MHD_CONNECTION_STATE.
Proof. solve_decision. Defined.

Inductive MHD_EVENT_LOOP_INFO : Set :=
| MHD_EVENT_LOOP_INFO_READ
| MHD_EVENT_LOOP_INFO_WRITE
| MHD_EVENT_LOOP_INFO_BLOCK
| MHD_EVENT_LOOP_INFO_CLEANUP.

Inductive MHD_RequestTerminationCode : Set :=
| MHD_REQUEST_TERMINATED_COMPLETED_OK
| MHD_REQUEST_TERMINATED_WITH_ERROR
| MHD_REQUEST_TERMINATED_TIMEOUT_REACHED
| MHD_REQUEST_TERMINATED_DAEMON_SHUTDOWN
| MHD_REQUEST_TERMINATED_READ_ERROR
| MHD_REQUEST_TERMINATED_CLIENT_ABORT.

Record MHD_Response : Set := {
  total_size : Z;
  reference_count : Z
}.

(** [struct h2_stream_t]: the fields h2_queue_response touches. *)
Record h2_stream_t : Set := {
  stream_id : Z;
  method : option string;
  response : option MHD_Response;
  response_code : Z;
  response_write_position : Z
}.

(** Modelled from the spec: the nghttp2 session is an opaque capability.  Its
    state is kept as what the code asks of it: the user data registered per
    stream id and the answers of [nghttp2_session_want_read] and
    [nghttp2_session_want_write]. *)
Record nghttp2_session_t : Type := {
  stream_user_data : gmap Z h2_stream_t;
  want_read : Z;
  want_write : Z
}.

(** [struct h2_session_t] *)
Record h2_session_t : Type := {
  session : nghttp2_session_t;
  session_id : Z;
  accepted_max : Z;
  current_stream_id : Z
}.

(** What a phase asks of its collaborators and what the connection's owner
    gets to observe, in the order of the calls. *)
Inductive collaborator_call : Set :=
| connection_closed (termination_code : MHD_RequestTerminationCode)
| error_logged (message : string)
| goaway_submitted (flags last_stream_id error_code : Z)
| session_send_called
| connection_cleaned_up.

(** [struct MHD_Connection]: the fields h2_connection.c reads or writes.
    [pool_increment] stands for [connection->daemon->pool_increment], [pool]
    tells whether the pool pointer is set, and [calls] is the record of the
    calls made so far. *)
Record MHD_Connection : Type := {
  state : MHD_CONNECTION_STATE;
  suspended : bool;
  read_closed : bool;
  in_idle : bool;
  event_loop_info : MHD_EVENT_LOOP_INFO;
  last_activity : Z;
  pool_increment : Z;
  pool : bool;
  read_buffer : option (list Z);
  read_buffer_size : Z;
  read_buffer_offset : Z;
  read_buffer_start_offset : Z;
  write_buffer : option (list Z);
  write_buffer_size : Z;
  write_buffer_send_offset : Z;
  write_buffer_append_offset : Z;
  h2 : option h2_session_t;
  calls : list collaborator_call
}.

(** Field updates, one per assigned field. *)

Definition set_state (v : MHD_CONNECTION_STATE) (c : MHD_Connection)
    : MHD_Connection :=
  {| state := v; suspended := suspended c; read_closed := read_closed c;
     in_idle := in_idle c; event_loop_info := event_loop_info c;
     last_activity := last_activity c; pool_increment := pool_increment c;
     pool := pool c; read_buffer := read_buffer c; read_buffer_size :=
     read_buffer_size c; read_buffer_offset := read_buffer_offset c;
     read_buffer_start_offset := read_buffer_start_offset c; write_buffer :=
     write_buffer c; write_buffer_size := write_buffer_size c;
     write_buffer_send_offset := write_buffer_send_offset c;
     write_buffer_append_offset := write_buffer_append_offset c; h2 := h2 c;
     calls := calls c |}.

Definition set_read_closed (v : bool) (c : MHD_Connection)
    : MHD_Connection :=
  {| state := state c; suspended := suspended c; read_closed := v; in_idle :=
     in_idle c; event_loop_info := event_loop_info c; last_activity :=
     last_activity c; pool_increment := pool_increment c; pool := pool c;
     read_buffer := read_buffer c; read_buffer_size := read_buffer_size c;
     read_buffer_offset := read_buffer_offset c; read_buffer_start_offset :=
     read_buffer_start_offset c; write_buffer := write_buffer c;
     write_buffer_size := write_buffer_size c; write_buffer_send_offset :=
     write_buffer_send_offset c; write_buffer_append_offset :=
     write_buffer_append_offset c; h2 := h2 c; calls := calls c |}.

Definition set_in_idle (v : bool) (c : MHD_Connection)
    : MHD_Connection :=
  {| state := state c; suspended := suspended c; read_closed := read_closed
     c; in_idle := v; event_loop_info := event_loop_info c; last_activity :=
     last_activity c; pool_increment := pool_increment c; pool := pool c;
     read_buffer := read_buffer c; read_buffer_size := read_buffer_size c;
     read_buffer_offset := read_buffer_offset c; read_buffer_start_offset :=
     read_buffer_start_offset c; write_buffer := write_buffer c;
     write_buffer_size := write_buffer_size c; write_buffer_send_offset :=
     write_buffer_send_offset c; write_buffer_append_offset :=
     write_buffer_append_offset c; h2 := h2 c; calls := calls c |}.

Definition set_event_loop_info (v : MHD_EVENT_LOOP_INFO) (c : MHD_Connection)
    : MHD_Connection :=
  {| state := state c; suspended := suspended c; read_closed := read_closed
     c; in_idle := in_idle c; event_loop_info := v; last_activity :=
     last_activity c; pool_increment := pool_increment c; pool := pool c;
     read_buffer := read_buffer c; read_buffer_size := read_buffer_size c;
     read_buffer_offset := read_buffer_offset c; read_buffer_start_offset :=
     read_buffer_start_offset c; write_buffer := write_buffer c;
     write_buffer_size := write_buffer_size c; write_buffer_send_offset :=
     write_buffer_send_offset c; write_buffer_append_offset :=
     write_buffer_append_offset c; h2 := h2 c; calls := calls c |}.

Definition set_last_activity (v : Z) (c : MHD_Connection)
    : MHD_Connection :=
  {| state := state c; suspended := suspended c; read_closed := read_closed
     c; in_idle := in_idle c; event_loop_info := event_loop_info c;
     last_activity := v; pool_increment := pool_increment c; pool := pool c;
     read_buffer := read_buffer c; read_buffer_size := read_buffer_size c;
     read_buffer_offset := read_buffer_offset c; read_buffer_start_offset :=
     read_buffer_start_offset c; write_buffer := write_buffer c;
     write_buffer_size := write_buffer_size c; write_buffer_send_offset :=
     write_buffer_send_offset c; write_buffer_append_offset :=
     write_buffer_append_offset c; h2 := h2 c; calls := calls c |}.

Definition set_pool (v : bool) (c : MHD_Connection)
    : MHD_Connection :=
  {| state := state c; suspended := suspended c; read_closed := read_closed
     c; in_idle := in_idle c; event_loop_info := event_loop_info c;
     last_activity := last_activity c; pool_increment := pool_increment c;
     pool := v; read_buffer := read_buffer c; read_buffer_size :=
     read_buffer_size c; read_buffer_offset := read_buffer_offset c;
     read_buffer_start_offset := read_buffer_start_offset c; write_buffer :=
     write_buffer c; write_buffer_size := write_buffer_size c;
     write_buffer_send_offset := write_buffer_send_offset c;
     write_buffer_append_offset := write_buffer_append_offset c; h2 := h2 c;
     calls := calls c |}.

Definition set_read_buffer (v : option (list Z)) (c : MHD_Connection)
    : MHD_Connection :=
  {| state := state c; suspended := suspended c; read_closed := read_closed
     c; in_idle := in_idle c; event_loop_info := event_loop_info c;
     last_activity := last_activity c; pool_increment := pool_increment c;
     pool := pool c; read_buffer := v; read_buffer_size := read_buffer_size
     c; read_buffer_offset := read_buffer_offset c; read_buffer_start_offset
     := read_buffer_start_offset c; write_buffer := write_buffer c;
     write_buffer_size := write_buffer_size c; write_buffer_send_offset :=
     write_buffer_send_offset c; write_buffer_append_offset :=
     write_buffer_append_offset c; h2 := h2 c; calls := calls c |}.

Definition set_read_buffer_size (v : Z) (c : MHD_Connection)
    : MHD_Connection :=
  {| state := state c; suspended := suspended c; read_closed := read_closed
     c; in_idle := in_idle c; event_loop_info := event_loop_info c;
     last_activity := last_activity c; pool_increment := pool_increment c;
     pool := pool c; read_buffer := read_buffer c; read_buffer_size := v;
     read_buffer_offset := read_buffer_offset c; read_buffer_start_offset :=
     read_buffer_start_offset c; write_buffer := write_buffer c;
     write_buffer_size := write_buffer_size c; write_buffer_send_offset :=
     write_buffer_send_offset c; write_buffer_append_offset :=
     write_buffer_append_offset c; h2 := h2 c; calls := calls c |}.

Definition set_read_buffer_offset (v : Z) (c : MHD_Connection)
    : MHD_Connection :=
  {| state := state c; suspended := suspended c; read_closed := read_closed
     c; in_idle := in_idle c; event_loop_info := event_loop_info c;
     last_activity := last_activity c; pool_increment := pool_increment c;
     pool := pool c; read_buffer := read_buffer c; read_buffer_size :=
     read_buffer_size c; read_buffer_offset := v; read_buffer_start_offset :=
     read_buffer_start_offset c; write_buffer := write_buffer c;
     write_buffer_size := write_buffer_size c; write_buffer_send_offset :=
     write_buffer_send_offset c; write_buffer_append_offset :=
     write_buffer_append_offset c; h2 := h2 c; calls := calls c |}.

Definition set_read_buffer_start_offset (v : Z) (c : MHD_Connection)
    : MHD_Connection :=
  {| state := state c; suspended := suspended c; read_closed := read_closed
     c; in_idle := in_idle c; event_loop_info := event_loop_info c;
     last_activity := last_activity c; pool_increment := pool_increment c;
     pool := pool c; read_buffer := read_buffer c; read_buffer_size :=
     read_buffer_size c; read_buffer_offset := read_buffer_offset c;
     read_buffer_start_offset := v; write_buffer := write_buffer c;
     write_buffer_size := write_buffer_size c; write_buffer_send_offset :=
     write_buffer_send_offset c; write_buffer_append_offset :=
     write_buffer_append_offset c; h2 := h2 c; calls := calls c |}.

Definition set_write_buffer (v : option (list Z)) (c : MHD_Connection)
    : MHD_Connection :=
  {| state := state c; suspended := suspended c; read_closed := read_closed
     c; in_idle := in_idle c; event_loop_info := event_loop_info c;
     last_activity := last_activity c; pool_increment := pool_increment c;
     pool := pool c; read_buffer := read_buffer c; read_buffer_size :=
     read_buffer_size c; read_buffer_offset := read_buffer_offset c;
     read_buffer_start_offset := read_buffer_start_offset c; write_buffer :=
     v; write_buffer_size := write_buffer_size c; write_buffer_send_offset :=
     write_buffer_send_offset c; write_buffer_append_offset :=
     write_buffer_append_offset c; h2 := h2 c; calls := calls c |}.

Definition set_write_buffer_size (v : Z) (c : MHD_Connection)
    : MHD_Connection :=
  {| state := state c; suspended := suspended c; read_closed := read_closed
     c; in_idle := in_idle c; event_loop_info := event_loop_info c;
     last_activity := last_activity c; pool_increment := pool_increment c;
     pool := pool c; read_buffer := read_buffer c; read_buffer_size :=
     read_buffer_size c; read_buffer_offset := read_buffer_offset c;
     read_buffer_start_offset := read_buffer_start_offset c; write_buffer :=
     write_buffer c; write_buffer_size := v; write_buffer_send_offset :=
     write_buffer_send_offset c; write_buffer_append_offset :=
     write_buffer_append_offset c; h2 := h2 c; calls := calls c |}.

Definition set_write_buffer_send_offset (v : Z) (c : MHD_Connection)
    : MHD_Connection :=
  {| state := state c; suspended := suspended c; read_closed := read_closed
     c; in_idle := in_idle c; event_loop_info := event_loop_info c;
     last_activity := last_activity c; pool_increment := pool_increment c;
     pool := pool c; read_buffer := read_buffer c; read_buffer_size :=
     read_buffer_size c; read_buffer_offset := read_buffer_offset c;
     read_buffer_start_offset := read_buffer_start_offset c; write_buffer :=
     write_buffer c; write_buffer_size := write_buffer_size c;
     write_buffer_send_offset := v; write_buffer_append_offset :=
     write_buffer_append_offset c; h2 := h2 c; calls := calls c |}.

Definition set_write_buffer_append_offset (v : Z) (c : MHD_Connection)
    : MHD_Connection :=
  {| state := state c; suspended := suspended c; read_closed := read_closed
     c; in_idle := in_idle c; event_loop_info := event_loop_info c;
     last_activity := last_activity c; pool_increment := pool_increment c;
     pool := pool c; read_buffer := read_buffer c; read_buffer_size :=
     read_buffer_size c; read_buffer_offset := read_buffer_offset c;
     read_buffer_start_offset := read_buffer_start_offset c; write_buffer :=
     write_buffer c; write_buffer_size := write_buffer_size c;
     write_buffer_send_offset := write_buffer_send_offset c;
     write_buffer_append_offset := v; h2 := h2 c; calls := calls c |}.

Definition set_h2 (v : option h2_session_t) (c : MHD_Connection)
    : MHD_Connection :=
  {| state := state c; suspended := suspended c; read_closed := read_closed
     c; in_idle := in_idle c; event_loop_info := event_loop_info c;
     last_activity := last_activity c; pool_increment := pool_increment c;
     pool := pool c; read_buffer := read_buffer c; read_buffer_size :=
     read_buffer_size c; read_buffer_offset := read_buffer_offset c;
     read_buffer_start_offset := read_buffer_start_offset c; write_buffer :=
     write_buffer c; write_buffer_size := write_buffer_size c;
     write_buffer_send_offset := write_buffer_send_offset c;
     write_buffer_append_offset := write_buffer_append_offset c; h2 := v;
     calls := calls c |}.

Definition set_calls (v : list collaborator_call) (c : MHD_Connection)
    : MHD_Connection :=
  {| state := state c; suspended := suspended c; read_closed := read_closed
     c; in_idle := in_idle c; event_loop_info := event_loop_info c;
     last_activity := last_activity c; pool_increment := pool_increment c;
     pool := pool c; read_buffer := read_buffer c; read_buffer_size :=
     read_buffer_size c; read_buffer_offset := read_buffer_offset c;
     read_buffer_start_offset := read_buffer_start_offset c; write_buffer :=
     write_buffer c; write_buffer_size := write_buffer_size c;
     write_buffer_send_offset := write_buffer_send_offset c;
     write_buffer_append_offset := write_buffer_append_offset c; h2 := h2 c;
     calls := v |}.

Definition set_stream_response (response0 : MHD_Response) (status_code : Z)
    (stream : h2_stream_t) : h2_stream_t :=
  {| stream_id := stream_id stream; method := method stream;
     response := Some response0; response_code := status_code;
     response_write_position := response_write_position stream |}.

Definition set_response_write_position (v : Z) (stream : h2_stream_t)
    : h2_stream_t :=
  {| stream_id := stream_id stream; method := method stream;
     response := response stream; response_code := response_code stream;
     response_write_position := v |}.

(** The stream record behind a stream id is shared between the session and
    its users: an assignment through the pointer is an update of the table. *)
Definition set_stream_user_data (id : Z) (stream : h2_stream_t)
    (h2s : h2_session_t) : h2_session_t :=
  {| session :=
       {| stream_user_data := <[id := stream]> (stream_user_data (session h2s));
          want_read := want_read (session h2s);
          want_write := want_write (session h2s) |};
     session_id := session_id h2s; accepted_max := accepted_max h2s;
     current_stream_id := current_stream_id h2s |}.

Definition log_call (e : collaborator_call) (c : MHD_Connection)
    : MHD_Connection :=
  set_calls (calls c ++ [e]) c.

(** [len] bytes of a buffer from [offset] on. *)
Definition buffer_slice (buffer : option (list Z)) (offset len : Z) : list Z :=
  match buffer with
  | Some b => take (Z.to_nat len) (drop (Z.to_nat offset) b)
  | None => []
  end.

(** A buffer with [data] placed at [offset]. *)
Definition buffer_store (buffer : option (list Z)) (offset : Z) (data : list Z)
    : option (list Z) :=
  match buffer with
  | Some b =>
      Some (take (Z.to_nat offset) b ++ data
              ++ drop (Z.to_nat offset + length data) b)
  | None => None
  end.

(** ** Collaborators *)

(** What [h2_fill_write_buffer] leaves behind: its result, the write buffer
    with its capacity and append offset, and the session. *)
Record fill_result : Type := {
  fill_rv : Z;
  fill_buffer : option (list Z);
  fill_buffer_size : Z;
  fill_append_offset : Z;
  fill_h2 : h2_session_t
}.

(** Modelled from the spec: the functions below are defined in other files of
    the library or in nghttp2.  One [Collaborators] value gives their answers
    during one invocation of a phase:
    - [recv_cls c offset len]: the result of the read primitive asked for at
      most [len] bytes at [&read_buffer[offset]], and the bytes it stored;
    - [send_cls c data len]: the result of the write primitive;
    - [MHD_pool_reallocate c]: the storage and capacity of the read buffer
      after a successful growth, [None] when the pool cannot grow it;
    - [nghttp2_session_mem_recv h2 data len]: the decoder's result and the
      session as the decoder and its callbacks leave it;
    - [h2_fill_write_buffer h2 c]: see [fill_result];
    - [h2_session_build_stream_headers h2 stream response]: its result;
    - [MHD_monotonic_sec_counter]: the clock read by
      [MHD_update_last_activity_]. *)
Record Collaborators : Type := {
  recv_cls : MHD_Connection -> Z -> Z -> Z * list Z;
  send_cls : MHD_Connection -> list Z -> Z -> Z;
  MHD_pool_reallocate : MHD_Connection -> option (list Z * Z);
  nghttp2_session_mem_recv : h2_session_t -> list Z -> Z -> Z * h2_session_t;
  h2_fill_write_buffer : h2_session_t -> MHD_Connection -> fill_result;
  h2_session_build_stream_headers :
    h2_session_t -> h2_stream_t -> MHD_Response -> Z;
  MHD_monotonic_sec_counter : Z
}.

Definition nghttp2_session_want_read (s : nghttp2_session_t) : Z := want_read s.
Definition nghttp2_session_want_write (s : nghttp2_session_t) : Z := want_write s.

Definition nghttp2_session_get_stream_user_data (s : nghttp2_session_t)
    (id : Z) : option h2_stream_t :=
  stream_user_data s !! id.

(** [nghttp2_submit_goaway (session, flags, last_stream_id, error_code, NULL, 0)] *)
Definition nghttp2_submit_goaway (flags last_stream_id error_code : Z)
    (connection : MHD_Connection) : MHD_Connection :=
  log_call (goaway_submitted flags last_stream_id error_code) connection.

(** [nghttp2_session_send (session)] *)
Definition nghttp2_session_send (connection : MHD_Connection) : MHD_Connection :=
  log_call session_send_called connection.

(** Modelled from the spec: [MHD_update_last_activity_] refreshes the
    last-activity timestamp. *)
Definition MHD_update_last_activity_ (w : Collaborators)
    (connection : MHD_Connection) : MHD_Connection :=
  set_last_activity (MHD_monotonic_sec_counter w) connection.

(** Modelled from the spec: [try_grow_read_buffer] is defined in
    connection.c.  The spec has the read buffer grown through the external
    allocator: the helper asks the pool for a larger read buffer and installs
    what it gets.  The spec names a failure of the growth fatal for the
    connection in its account of the read phase; it does not say that the
    helper closes the connection, and the helper is taken only to report the
    failure to its caller and to leave the connection as it is.  The report
    is not kept here, as the one caller, line 68 of
    [h2_connection_handle_read], does not read it. *)
Definition try_grow_read_buffer (w : Collaborators)
    (connection : MHD_Connection) : MHD_Connection :=
  match MHD_pool_reallocate w connection with
  | Some (buf, new_size) =>
      set_read_buffer_size new_size (set_read_buffer (Some buf) connection)
  | None => connection
  end.

(** Modelled from the spec: [cleanup_connection] hands a closed connection
    over to the daemon's cleanup list; it touches none of the fields kept
    here. *)
Definition cleanup_connection (connection : MHD_Connection) : MHD_Connection :=
  log_call connection_cleaned_up connection.

(** Modelled from the spec: [MHD_str_equal_caseless_] compares two strings
    byte by byte, ignoring the case of ASCII letters. *)
Definition toasciilower (c : ascii) : ascii :=
  let n := N_of_ascii c in
  if ((65 <=? n) && (n <=? 90))%N then ascii_of_N (n + 32) else c.

Fixpoint MHD_str_equal_caseless_ (str1 str2 : string) : bool :=
  match str1, str2 with
  | EmptyString, EmptyString => true
  | String c1 s1, String c2 s2 =>
      if Ascii.eqb (toasciilower c1) (toasciilower c2)
      then MHD_str_equal_caseless_ s1 s2
      else false
  | _, _ => false
  end.

(** [MHD_increment_response_rc] *)
Definition MHD_increment_response_rc (response0 : MHD_Response) : MHD_Response :=
  {| total_size := total_size response0;
     reference_count := reference_count response0 + 1 |}.

(** ** h2_connection.c *)

(** [h2_connection_close].  [h2_session_destroy (connection->h2)] and
    [MHD_pool_destroy (connection->pool)] of lines 352 and 356 are calls into
    other files; what is kept of them is that the session and the pool are
    gone afterwards.  Nothing is said of what they do with the NULL they are
    passed when the function is called a second time. *)
Definition h2_connection_close (connection : MHD_Connection) : MHD_Connection :=
  let connection := set_h2 None connection in
  let connection := set_state MHD_CONNECTION_CLOSED connection in
  let connection := set_pool false connection in
  let connection := set_read_buffer None connection in
  let connection := set_read_buffer_size 0 connection in
  let connection := set_write_buffer None connection in
  set_write_buffer_size 0 connection.

(** Modelled from the spec: [MHD_connection_close_] is defined in
    connection.c.  Closing hands the termination reason to the connection's
    owner and tears the connection down as [h2_connection_close] does:
    session destroyed and cleared, state Closed, pool released, both buffers
    nulled and zero-sized. *)
Definition MHD_connection_close_ (connection : MHD_Connection)
    (termination_code : MHD_RequestTerminationCode) : MHD_Connection :=
  h2_connection_close (log_call (connection_closed termination_code) connection).

(** Modelled from the spec: [connection_close_error] is defined in
    connection.c.  It logs the message and closes the connection with the
    error termination reason. *)
Definition connection_close_error (connection : MHD_Connection)
    (emsg : string) : MHD_Connection :=
  MHD_connection_close_ (log_call (error_logged emsg) connection)
    MHD_REQUEST_TERMINATED_WITH_ERROR.

(** Lines 73 to 110 of [h2_connection_handle_read]: the session check, the
    call of the read primitive and the handling of its result. *)
Definition read_from_socket (w : Collaborators) (connection : MHD_Connection)
    : MHD_Connection :=
  match h2 connection with
  | None => connection
  | Some _ =>
      let '(bytes_read, data) :=
        recv_cls w connection (read_buffer_offset connection)
          (size_sub (read_buffer_size connection)
                    (read_buffer_offset connection)) in
      if bytes_read <? 0 then
        if MHD_ERR_AGAIN_ =? bytes_read then connection
        else if MHD_ERR_CONNRESET_ =? bytes_read then
          connection_close_error connection
            ("Socket is unexpectedly disconnected when reading request." ++ LF)
        else
          connection_close_error connection
            ("Connection socket is closed due to error when reading request."
               ++ LF)
      else if 0 =? bytes_read then
        MHD_connection_close_ (set_read_closed true connection)
          MHD_REQUEST_TERMINATED_CLIENT_ABORT
      else
        let connection :=
          set_read_buffer
            (buffer_store (read_buffer connection)
               (read_buffer_offset connection) data) connection in
        let connection :=
          set_read_buffer_offset
            (size_add (read_buffer_offset connection) bytes_read) connection in
        MHD_update_last_activity_ w connection
  end.

(** [h2_connection_handle_read] *)
Definition h2_connection_handle_read (w : Collaborators)
    (connection : MHD_Connection) : MHD_Connection :=
  if bool_decide (MHD_CONNECTION_CLOSED = state connection)
     || suspended connection
  then connection
  else
    let connection :=
      if read_buffer_size connection
           <? size_add (read_buffer_offset connection)
                       (pool_increment connection)
      then try_grow_read_buffer w connection
      else connection in
    if read_buffer_size connection =? read_buffer_offset connection
    then connection
    else read_from_socket w connection.

(** Lines 127 to 155 of [h2_connection_handle_write]: one write of the
    pending span.  [inl] is an early return of the phase, [inr] goes on. *)
Definition flush_write_buffer (w : Collaborators) (connection : MHD_Connection)
    : MHD_Connection + MHD_Connection :=
  if 0 <? size_sub (write_buffer_append_offset connection)
                   (write_buffer_send_offset connection)
  then
    let ret :=
      send_cls w connection
        (buffer_slice (write_buffer connection)
           (write_buffer_send_offset connection)
           (size_sub (write_buffer_append_offset connection)
                     (write_buffer_send_offset connection)))
        (size_sub (write_buffer_append_offset connection)
                  (write_buffer_send_offset connection)) in
    if ret <? 0 then
      if MHD_ERR_AGAIN_ =? ret then inl connection
      else inl (MHD_connection_close_ connection
                  MHD_REQUEST_TERMINATED_WITH_ERROR)
    else
      let connection :=
        set_write_buffer_send_offset
          (size_add (write_buffer_send_offset connection) ret) connection in
      if size_sub (write_buffer_append_offset connection)
                  (write_buffer_send_offset connection) =? 0
      then
        inr (set_write_buffer_send_offset 0
               (set_write_buffer_append_offset 0 connection))
      else inr connection
  else inr connection.

(** The connection as [h2_fill_write_buffer] leaves it (lines 157 and 158):
    the session has encoded pending output into the write buffer. *)
Definition fill_write_buffer (filled : fill_result)
    (connection : MHD_Connection) : MHD_Connection :=
  let connection := set_write_buffer (fill_buffer filled) connection in
  let connection := set_write_buffer_size (fill_buffer_size filled) connection in
  let connection :=
    set_write_buffer_append_offset (fill_append_offset filled) connection in
  set_h2 (Some (fill_h2 filled)) connection.

(** The test of lines 176 to 178. *)
Definition session_finished (h2s : h2_session_t) (connection : MHD_Connection)
    : bool :=
  (nghttp2_session_want_read (session h2s) =? 0)
  && (nghttp2_session_want_write (session h2s) =? 0)
  && (size_sub (write_buffer_append_offset connection)
               (write_buffer_send_offset connection) =? 0).

(** Lines 166 to 191: the end of the write phase. *)
Definition finish_write (w : Collaborators) (h2s : h2_session_t)
    (connection : MHD_Connection) : MHD_Connection :=
  if session_finished h2s connection
  then MHD_connection_close_ connection MHD_REQUEST_TERMINATED_COMPLETED_OK
  else
    let connection := MHD_update_last_activity_ w connection in
    set_event_loop_info MHD_EVENT_LOOP_INFO_READ connection.

(** [h2_connection_handle_write]; [h2] is one pointer read at the start of
    the phase, the session behind it is the one the collaborators update. *)
Definition h2_connection_handle_write (w : Collaborators)
    (connection : MHD_Connection) : MHD_Connection :=
  match h2 connection with
  | None => connection
  | Some h2s =>
      match flush_write_buffer w connection with
      | inl connection => connection
      | inr connection =>
          let filled := h2_fill_write_buffer w h2s connection in
          let connection := fill_write_buffer filled connection in
          if negb (fill_rv filled =? 0)
          then MHD_connection_close_ connection
                 MHD_REQUEST_TERMINATED_WITH_ERROR
          else finish_write w (fill_h2 filled) connection
      end
  end.

(** [h2_connection_handle_idle].  The available length is computed into
    [ssize_t bytes_read] and handed to the decoder, whose parameter is
    [size_t inlen]. *)
Definition h2_connection_handle_idle (w : Collaborators)
    (connection : MHD_Connection) : MHD_Connection * Z :=
  let connection := set_in_idle true connection in
  match h2 connection with
  | None => (set_in_idle false (cleanup_connection connection), MHD_NO)
  | Some h2s =>
      if bool_decide (state connection = MHD_CONNECTION_CLOSED)
      then (set_in_idle false (cleanup_connection connection), MHD_NO)
      else
        let bytes_read :=
          to_ssize (size_sub (read_buffer_offset connection)
                             (read_buffer_start_offset connection)) in
        let inlen := to_size bytes_read in
        let '(rv, h2s) :=
          nghttp2_session_mem_recv w h2s
            (buffer_slice (read_buffer connection)
               (read_buffer_start_offset connection) inlen)
            inlen in
        let connection := set_h2 (Some h2s) connection in
        if rv <? 0 then
          let connection :=
            nghttp2_submit_goaway NGHTTP2_FLAG_NONE (accepted_max h2s)
              NGHTTP2_PROTOCOL_ERROR connection in
          let connection := nghttp2_session_send connection in
          (MHD_connection_close_ connection MHD_REQUEST_TERMINATED_WITH_ERROR,
           MHD_NO)
        else
          let connection := MHD_update_last_activity_ w connection in
          let connection :=
            set_read_buffer_start_offset
              (size_add (read_buffer_start_offset connection) rv) connection in
          let connection :=
            if read_buffer_offset connection
                 =? read_buffer_start_offset connection
            then
              set_read_buffer_start_offset 0
                (set_read_buffer_offset 0 connection)
            else connection in
          let connection :=
            set_event_loop_info MHD_EVENT_LOOP_INFO_WRITE connection in
          let connection :=
            if negb (size_sub (write_buffer_append_offset connection)
                              (write_buffer_send_offset connection) =? 0)
            then set_event_loop_info MHD_EVENT_LOOP_INFO_WRITE connection
            else connection in
          (connection, MHD_YES)
  end.

(** The test of lines 323 to 328 of [h2_queue_response]. *)
Definition body_not_allowed (stream : h2_stream_t) (status_code : Z) : bool :=
  match method stream with
  | Some m => MHD_str_equal_caseless_ m MHD_HTTP_METHOD_HEAD
  | None => false
  end
  || (status_code <? MHD_HTTP_OK)
  || (MHD_HTTP_NO_CONTENT =? status_code)
  || (MHD_HTTP_NOT_MODIFIED =? status_code).

(** Lines 319 to 334 of [h2_queue_response]: the response is bound to the
    stream. *)
Definition bind_response (stream : h2_stream_t) (status_code : Z)
    (response0 : MHD_Response) : h2_stream_t :=
  let response0 := MHD_increment_response_rc response0 in
  let stream := set_stream_response response0 status_code stream in
  if body_not_allowed stream status_code
  then set_response_write_position (total_size response0) stream
  else stream.

(** [h2_queue_response]; [None] is the failure of [mhd_assert (h2 != NULL)]. *)
Definition h2_queue_response (w : Collaborators) (connection : MHD_Connection)
    (status_code : Z) (response0 : MHD_Response)
    : option (MHD_Connection * Z) :=
  match h2 connection with
  | None => None
  | Some h2s =>
      match nghttp2_session_get_stream_user_data (session h2s)
              (current_stream_id h2s) with
      | None => Some (connection, MHD_NO)
      | Some stream =>
          let stream := bind_response stream status_code response0 in
          let h2s := set_stream_user_data (current_stream_id h2s) stream h2s in
          let connection := set_h2 (Some h2s) connection in
          let r :=
            h2_session_build_stream_headers w h2s stream
              (MHD_increment_response_rc response0) in
          if negb (r =? 0) then Some (connection, MHD_NO)
          else
            Some (set_event_loop_info MHD_EVENT_LOOP_INFO_WRITE connection,
                  MHD_YES)
      end
  end.

(** [h2_is_h2_preface]; [None] when a comparison would read outside the read
    buffer. *)
Definition h2_is_h2_preface (connection : MHD_Connection) : option Z :=
  if H2_MAGIC_TOKEN_LEN <=? read_buffer_offset connection then
    buf ← read_buffer connection;
    r ← memcmp H2_MAGIC_TOKEN buf (Z.to_nat H2_MAGIC_TOKEN_LEN);
    Some (lnot r)
  else if H2_MAGIC_TOKEN_LEN_MIN <=? read_buffer_offset connection then
    buf ← read_buffer connection;
    r ← memcmp H2_MAGIC_TOKEN buf (Z.to_nat H2_MAGIC_TOKEN_LEN_MIN);
    Some (lnot r)
  else Some MHD_NO.

(** ** Phases in sequence *)

Inductive phase : Set := read_phase | idle_phase | write_phase.

Definition run_phase (w : Collaborators) (p : phase)
    (connection : MHD_Connection) : MHD_Connection :=
  match p with
  | read_phase => h2_connection_handle_read w connection
  | idle_phase => fst (h2_connection_handle_idle w connection)
  | write_phase => h2_connection_handle_write w connection
  end.

(** The connection after each phase of a run, in order; every phase comes
    with the answers its collaborators give during it. *)
Fixpoint states_after (steps : list (phase * Collaborators))
    (connection : MHD_Connection) : list MHD_Connection :=
  match steps with
  | [] => []
  | (p, w) :: steps' =>
      let connection := run_phase w p connection in
      connection :: states_after steps' connection
  end.

(** ** Predicates on connections and collaborators *)

Definition read_offsets_ordered (c : MHD_Connection) : Prop :=
  0 <= read_buffer_start_offset c <= read_buffer_offset c.

Definition write_offsets_ordered (c : MHD_Connection) : Prop :=
  0 <= write_buffer_send_offset c <= write_buffer_append_offset c.

(** The buffer invariant of the data model. *)
Definition buffer_invariant (c : MHD_Connection) : Prop :=
  (read_offsets_ordered c /\ read_buffer_offset c <= read_buffer_size c)
  /\ (write_offsets_ordered c
      /\ write_buffer_append_offset c <= write_buffer_size c).

(** Both capacities are values of type [size_t]. *)
Definition capacities_representable (c : MHD_Connection) : Prop :=
  read_buffer_size c < SIZE_MODULUS /\ write_buffer_size c < SIZE_MODULUS.

(** The contracts of the collaborators: a socket primitive transfers no more
    than it was asked to, the decoder consumes no more than it was fed, the
    pool never shrinks a buffer it grows, and the encoder appends within the
    capacity of the write buffer it leaves.  The lengths are of type
    [size_t], so the contracts speak of lengths that are not negative; a
    primitive may answer an error code, which is negative, at any length. *)
Record honest (w : Collaborators) : Prop := {
  recv_within : forall c offset len,
    0 <= len -> fst (recv_cls w c offset len) <= len;
  send_within : forall c data len,
    0 <= len -> send_cls w c data len <= len;
  grow_within : forall c buf new_size,
    MHD_pool_reallocate w c = Some (buf, new_size) ->
    read_buffer_size c <= new_size < SIZE_MODULUS;
  mem_recv_within : forall h2s data len,
    0 <= len -> fst (nghttp2_session_mem_recv w h2s data len) <= len;
  fill_within : forall h2s c,
    write_offsets_ordered c ->
    write_buffer_append_offset c <= write_buffer_size c < SIZE_MODULUS ->
    write_buffer_append_offset c
      <= fill_append_offset (h2_fill_write_buffer w h2s c)
      <= fill_buffer_size (h2_fill_write_buffer w h2s c)
    /\ fill_buffer_size (h2_fill_write_buffer w h2s c) < SIZE_MODULUS
}.

(** What holds of the offsets after every phase of a run: each pair of
    offsets is ordered, and an open connection satisfies the buffer
    invariant. *)
Definition offsets_in_order (c : MHD_Connection) : Prop :=
  read_offsets_ordered c
  /\ write_offsets_ordered c
  /\ (state c <> MHD_CONNECTION_CLOSED -> buffer_invariant c).

(** The property the phases preserve: the connection satisfies the buffer
    invariant, or it has been torn down with its offsets still in order. *)
Definition settled (c : MHD_Connection) : Prop :=
  capacities_representable c
  /\ read_offsets_ordered c
  /\ write_offsets_ordered c
  /\ (buffer_invariant c
      \/ (state c = MHD_CONNECTION_CLOSED /\ h2 c = None)).

(** ** Sample values *)

Definition no_streams : nghttp2_session_t :=
  {| stream_user_data := ∅; want_read := 1; want_write := 0 |}.

Definition sample_session : h2_session_t :=
  {| session := no_streams; session_id := 1; accepted_max := 7;
     current_stream_id := 7 |}.

(** An active connection with a session, [filled] bytes in a read buffer of
    [capacity] bytes and an empty write buffer of 32 bytes. *)
Definition sample_connection (capacity filled : Z) : MHD_Connection :=
  {| state := MHD_CONNECTION_ACTIVE; suspended := false;
     read_closed := false; in_idle := false;
     event_loop_info := MHD_EVENT_LOOP_INFO_READ; last_activity := 0;
     pool_increment := 1024; pool := true;
     read_buffer := Some (replicate (Z.to_nat capacity) 0);
     read_buffer_size := capacity; read_buffer_offset := filled;
     read_buffer_start_offset := 0;
     write_buffer := Some (replicate 32 0); write_buffer_size := 32;
     write_buffer_send_offset := 0; write_buffer_append_offset := 0;
     h2 := Some sample_session; calls := [] |}.

(** A stream with the given request method and no response yet, and a
    connection whose session is processing that stream under id 7. *)
Definition sample_stream (m : option string) : h2_stream_t :=
  {| stream_id := 7; method := m; response := None; response_code := 0;
     response_write_position := 0 |}.

Definition session_with_stream (stream : h2_stream_t) : h2_session_t :=
  set_stream_user_data 7 stream sample_session.

Definition connection_with_stream (stream : h2_stream_t) : MHD_Connection :=
  set_h2 (Some (session_with_stream stream)) (sample_connection 20 0).

Definition sample_response : MHD_Response :=
  {| total_size := 100; reference_count := 1 |}.

(** The write position of stream 7 after a call of [h2_queue_response]. *)
Definition queued_write_position (result : option (MHD_Connection * Z))
    : option Z :=
  '(c, _) ← result;
  h2s ← h2 c;
  stream ← nghttp2_session_get_stream_user_data (session h2s) 7;
  Some (response_write_position stream).

(** A connection whose read buffer holds exactly the given bytes. *)
Definition connection_holding (bytes : list Z) : MHD_Connection :=
  set_read_buffer (Some bytes)
    (sample_connection (Z.of_nat (length bytes)) (Z.of_nat (length bytes))).

(** Answers of a collaborator as a function of the length it is given: at
    most [n], always [n], or the whole length. *)
Definition at_most (n : Z) : Z -> Z := fun len => Z.min n len.
Definition always (n : Z) : Z -> Z := fun _ => n.
Definition everything : Z -> Z := fun len => len.

(** Collaborators for one invocation: asked for [len] bytes the read
    primitive answers [recv_result len], the write primitive
    [send_result len] and the decoder [decoded len], leaving the session
    alone; the pool cannot grow the read buffer; the encoder appends
    [encoded] bytes, as far as the write buffer has room, and reports
    success, and so does the header-block builder. *)
Definition sample_collaborators (recv_result send_result decoded : Z -> Z)
    (encoded : Z) : Collaborators :=
  {| recv_cls := fun _ _ len =>
       (recv_result len, replicate (Z.to_nat (recv_result len)) 65);
     send_cls := fun _ _ len => send_result len;
     MHD_pool_reallocate := fun _ => None;
     nghttp2_session_mem_recv := fun h2s _ len => (decoded len, h2s);
     h2_fill_write_buffer := fun h2s c =>
       {| fill_rv := 0; fill_buffer := write_buffer c;
          fill_buffer_size := write_buffer_size c;
          fill_append_offset :=
            Z.min (write_buffer_append_offset c + encoded)
                  (write_buffer_size c);
          fill_h2 := h2s |};
     h2_session_build_stream_headers := fun _ _ _ => 0;
     MHD_monotonic_sec_counter := 100 |}.

(** The peer has nothing to read and no room to write. *)
Definition peer_would_block : Collaborators :=
  sample_collaborators (always MHD_ERR_AGAIN_) (always MHD_ERR_AGAIN_)
    (at_most 0) 0.

(** The peer delivers up to [n] bytes; none is the end of the stream. *)
Definition peer_sends (n : Z) : Collaborators :=
  sample_collaborators (at_most n) everything (at_most 0) 0.

(** The decoder answers [rv], or the length it is given if that is less. *)
Definition decoder_answers (rv : Z) : Collaborators :=
  sample_collaborators (at_most 0) everything (at_most rv) 0.

(** The session encodes [n] bytes of output. *)
Definition session_encodes (n : Z) : Collaborators :=
  sample_collaborators (at_most 0) everything (at_most 0) n.

(** The four buffer offsets and the lifecycle state of two connections
    agree. *)
Definition same_offsets_and_state (c c' : MHD_Connection) : Prop :=
  read_buffer_start_offset c' = read_buffer_start_offset c
  /\ read_buffer_offset c' = read_buffer_offset c
  /\ write_buffer_send_offset c' = write_buffer_send_offset c
  /\ write_buffer_append_offset c' = write_buffer_append_offset c
  /\ state c' = state c.

(** The cases in which [h2_queue_response] treats the body as already sent:
    a HEAD request, a status below 200, 204 or 304. *)
Definition no_body_case (stream : h2_stream_t) (status_code : Z) : Prop :=
  (exists m, method stream = Some m
             /\ MHD_str_equal_caseless_ m MHD_HTTP_METHOD_HEAD = true)
  \/ status_code < MHD_HTTP_OK
  \/ status_code = MHD_HTTP_NO_CONTENT
  \/ status_code = MHD_HTTP_NOT_MODIFIED.

(** ** mhd_bithelpers.h: the other put macros and the rotation *)

(** [(uint64_t) x] *)
Definition uint64_t (x : Z) : Z := Z.land x 18446744073709551615.

(** The eight bytes of a 64-bit value in the order in which a host of the
    given byte order lays them out in memory, lowest address first. *)
Definition native_layout64 (host : byte_order) (v : Z) : list Z :=
  match host with
  | _MHD_BIG_ENDIAN =>
      [Z.shiftr v 56; Z.shiftr v 48; Z.shiftr v 40; Z.shiftr v 32;
       Z.shiftr v 24; Z.shiftr v 16; Z.shiftr v 8; v]
  | _MHD_LITTLE_ENDIAN =>
      [v; Z.shiftr v 8; Z.shiftr v 16; Z.shiftr v 24;
       Z.shiftr v 32; Z.shiftr v 40; Z.shiftr v 48; Z.shiftr v 56]
  | _MHD_PDP_ENDIAN =>
      [Z.shiftr v 48; Z.shiftr v 56; Z.shiftr v 32; Z.shiftr v 40;
       Z.shiftr v 16; Z.shiftr v 24; v; Z.shiftr v 8]
  end.

(** [*(uint64_t* )(addr) = v] on the given host. *)
Definition store_uint64_native (host : byte_order) (mem : list Z) (addr : nat)
    (v : Z) : option (list Z) :=
  match native_layout64 host v with
  | [b0; b1; b2; b3; b4; b5; b6; b7] =>
      mem ← store_uint8 mem addr 0 b0;
      mem ← store_uint8 mem addr 1 b1;
      mem ← store_uint8 mem addr 2 b2;
      mem ← store_uint8 mem addr 3 b3;
      mem ← store_uint8 mem addr 4 b4;
      mem ← store_uint8 mem addr 5 b5;
      mem ← store_uint8 mem addr 6 b6;
      store_uint8 mem addr 7 b7
  | _ => None
  end.

(** [_MHD_PUT_64BIT_LE (addr, value64)]: a plain store on a little-endian
    host, eight byte stores (index 0 first) on any other. *)
Definition _MHD_PUT_64BIT_LE (host : byte_order) (mem : list Z) (addr : nat)
    (value64 : Z) : option (list Z) :=
  if decide (host = _MHD_LITTLE_ENDIAN)
  then store_uint64_native host mem addr (uint64_t value64)
  else
    mem ← store_uint8 mem addr 0 (uint64_t value64);
    mem ← store_uint8 mem addr 1 (Z.shiftr (uint64_t value64) 8);
    mem ← store_uint8 mem addr 2 (Z.shiftr (uint64_t value64) 16);
    mem ← store_uint8 mem addr 3 (Z.shiftr (uint64_t value64) 24);
    mem ← store_uint8 mem addr 4 (Z.shiftr (uint64_t value64) 32);
    mem ← store_uint8 mem addr 5 (Z.shiftr (uint64_t value64) 40);
    mem ← store_uint8 mem addr 6 (Z.shiftr (uint64_t value64) 48);
    store_uint8 mem addr 7 (Z.shiftr (uint64_t value64) 56).

(** [_MHD_PUT_32BIT_LE (addr, value32)]: a plain store on a little-endian
    host, four byte stores (index 0 first) on any other. *)
Definition _MHD_PUT_32BIT_LE (host : byte_order) (mem : list Z) (addr : nat)
    (value32 : Z) : option (list Z) :=
  if decide (host = _MHD_LITTLE_ENDIAN)
  then store_uint32_native host mem addr (uint32_t value32)
  else
    mem ← store_uint8 mem addr 0 (uint32_t value32);
    mem ← store_uint8 mem addr 1 (Z.shiftr (uint32_t value32) 8);
    mem ← store_uint8 mem addr 2 (Z.shiftr (uint32_t value32) 16);
    store_uint8 mem addr 3 (Z.shiftr (uint32_t value32) 24).

(** [_MHD_PUT_64BIT_BE (addr, value64)]: a plain store on a big-endian host,
    eight byte stores (index 7 first) on any other. *)
Definition _MHD_PUT_64BIT_BE (host : byte_order) (mem : list Z) (addr : nat)
    (value64 : Z) : option (list Z) :=
  if decide (host = _MHD_BIG_ENDIAN)
  then store_uint64_native host mem addr (uint64_t value64)
  else
    mem ← store_uint8 mem addr 7 (uint64_t value64);
    mem ← store_uint8 mem addr 6 (Z.shiftr (uint64_t value64) 8);
    mem ← store_uint8 mem addr 5 (Z.shiftr (uint64_t value64) 16);
    mem ← store_uint8 mem addr 4 (Z.shiftr (uint64_t value64) 24);
    mem ← store_uint8 mem addr 3 (Z.shiftr (uint64_t value64) 32);
    mem ← store_uint8 mem addr 2 (Z.shiftr (uint64_t value64) 40);
    mem ← store_uint8 mem addr 1 (Z.shiftr (uint64_t value64) 48);
    store_uint8 mem addr 0 (Z.shiftr (uint64_t value64) 56).

(** [_MHD_ROTR32 (value32, bits)] for a [value32] of type [uint32_t] and a
    [bits] written at the call as one token, a literal or a variable, of
    which this function takes the value.  The macro does not parenthesise
    [bits] inside [32 - bits], so at a compound count such as [a + b] it
    expands to another expression, which this function does not model.
    Both shifts are 32-bit shifts, so what the left shift moves past bit 31
    is lost. *)
Definition _MHD_ROTR32 (value32 bits : Z) : Z :=
  Z.lor (Z.shiftr value32 bits) (uint32_t (Z.shiftl value32 (32 - bits))).

(** The value whose four bytes, most significant first, are given. *)
Definition be32 (b0 b1 b2 b3 : Z) : Z :=
  Z.lor (Z.lor (Z.lor (Z.shiftl b0 24) (Z.shiftl b1 16)) (Z.shiftl b2 8)) b3.

(** The bytes the 32-bit and 64-bit put macros store, most significant
    first, written as the macros compute them. *)
Definition be_bytes32 (v : Z) : list Z :=
  [uint8_t (Z.shiftr (uint32_t v) 24); uint8_t (Z.shiftr (uint32_t v) 16);
   uint8_t (Z.shiftr (uint32_t v) 8); uint8_t (uint32_t v)].

Definition be_bytes64 (v : Z) : list Z :=
  [uint8_t (Z.shiftr (uint64_t v) 56); uint8_t (Z.shiftr (uint64_t v) 48);
   uint8_t (Z.shiftr (uint64_t v) 40); uint8_t (Z.shiftr (uint64_t v) 32);
   uint8_t (Z.shiftr (uint64_t v) 24); uint8_t (Z.shiftr (uint64_t v) 16);
   uint8_t (Z.shiftr (uint64_t v) 8); uint8_t (uint64_t v)].

(** The [n] low bytes of [v], most significant first, in arithmetic. *)
Fixpoint be_bytes (n : nat) (v : Z) : list Z :=
  match n with
  | O => []
  | S k => (v / 2 ^ (8 * Z.of_nat k)) mod 256 :: be_bytes k v
  end.

(** A buffer with [bytes] in place of what it held from [addr] on. *)
Definition splice (mem : list Z) (addr : nat) (bytes : list Z) : list Z :=
  take addr mem ++ bytes ++ drop (addr + length bytes) mem.

(** ** h2_connection.c: the read buffer before a read, and protocol selection *)

(** Lines 64 to 68 of [h2_connection_handle_read]: the read buffer as the
    phase leaves it before it looks at the room that is left. *)
Definition prepare_read_buffer (w : Collaborators) (connection : MHD_Connection)
    : MHD_Connection :=
  if read_buffer_size connection
       <? size_add (read_buffer_offset connection) (pool_increment connection)
  then try_grow_read_buffer w connection
  else connection.

(** The values [connection->version] is set to. *)
Inductive http_version_name : Set :=
| MHD_HTTP_VERSION_1_1
| MHD_HTTP_VERSION_2_0.

(** [HTTP_VERSION (major, minor)] *)
Definition HTTP_VERSION (major minor : Z) : Z * Z := (major, minor).

Inductive MHD_ConnKeepAlive : Set :=
| MHD_CONN_KEEPALIVE_UNKOWN
| MHD_CONN_MUST_CLOSE
| MHD_CONN_USE_KEEPALIVE.

(** The functions a phase callback of a connection can point to:
    [h1_callback read_phase] stands for [&MHD_connection_handle_read],
    [h2_callback read_phase] for [&h2_connection_handle_read], and likewise
    for the idle and write phases. *)
Inductive callback : Set :=
| h1_callback (p : phase)
| h2_callback (p : phase).

(** The fields of [struct MHD_Connection] that only protocol selection
    assigns. *)
Record protocol_fields : Set := {
  version : option http_version_name;
  http_version : Z * Z;
  keepalive : MHD_ConnKeepAlive;
  handle_read_cls : callback;
  handle_idle_cls : callback;
  handle_write_cls : callback
}.

(** [h2_set_h1_callbacks] *)
Definition h2_set_h1_callbacks (selected : protocol_fields) : protocol_fields :=
  {| version := Some MHD_HTTP_VERSION_1_1;
     http_version := HTTP_VERSION 1 1;
     keepalive := keepalive selected;
     handle_read_cls := h1_callback read_phase;
     handle_idle_cls := h1_callback idle_phase;
     handle_write_cls := h1_callback write_phase |}.

(** [h2_set_h2_callbacks]; [h2_session_create] is the answer of the function
    of that name, defined with the session in another file.  The closure of
    a connection without session does not end the function: the readiness
    interest is assigned after it. *)
Definition h2_set_h2_callbacks
    (h2_session_create : MHD_Connection -> option h2_session_t)
    (selected : protocol_fields) (connection : MHD_Connection)
    : protocol_fields * MHD_Connection :=
  let selected :=
    {| version := Some MHD_HTTP_VERSION_2_0;
       http_version := HTTP_VERSION 2 0;
       keepalive := MHD_CONN_USE_KEEPALIVE;
       handle_read_cls := h2_callback read_phase;
       handle_idle_cls := h2_callback idle_phase;
       handle_write_cls := h2_callback write_phase |} in
  let connection := set_h2 (h2_session_create connection) connection in
  let connection :=
    match h2 connection with
    | None =>
        MHD_connection_close_ connection MHD_REQUEST_TERMINATED_WITH_ERROR
    | Some _ => connection
    end in
  (selected, set_event_loop_info MHD_EVENT_LOOP_INFO_WRITE connection).

(** ** Counting closures *)

Definition is_closure (e : collaborator_call) : bool :=
  match e with
  | connection_closed _ => true
  | _ => false
  end.

(** How often a record of calls closes the connection. *)
Fixpoint closures (l : list collaborator_call) : nat :=
  match l with
  | [] => 0
  | e :: l' => ((if is_closure e then 1 else 0) + closures l')%nat
  end.

(** What one phase adds to the record of calls: no closure, or one closure
    of a connection that had a session and has none afterwards. *)
Definition closes_at_most_once (c c' : MHD_Connection) : Prop :=
  exists added,
    calls c' = calls c ++ added
    /\ ((closures added = 0%nat /\ (h2 c = None -> h2 c' = None))
        \/ (closures added = 1%nat /\ h2 c <> None /\ h2 c' = None
            /\ state c' = MHD_CONNECTION_CLOSED)).

(** Two connections that differ at most in [in_idle] and in the record of
    calls. *)
Definition same_but_calls (c c' : MHD_Connection) : Prop :=
  set_calls (calls c) (set_in_idle (in_idle c) c') = c.

(** A write buffer of 32 bytes numbered from 0, of which those from 4 up to
    16 are pending. *)
Definition connection_with_pending_output : MHD_Connection :=
  set_write_buffer (Some (Z.of_nat <$> seq 0 32))
    (set_write_buffer_send_offset 4
       (set_write_buffer_append_offset 16 (sample_connection 20 0))).

(** A read buffer of 20 bytes numbered from 0, of which those from 2 up to
    12 are still to be decoded. *)
Definition connection_with_input : MHD_Connection :=
  set_read_buffer (Some (Z.of_nat <$> seq 0 20))
    (set_read_buffer_start_offset 2 (sample_connection 20 12)).

(** Protocol fields before any selection. *)
Definition unselected : protocol_fields :=
  {| version := None; http_version := HTTP_VERSION 0 0;
     keepalive := MHD_CONN_KEEPALIVE_UNKOWN;
     handle_read_cls := h1_callback read_phase;
     handle_idle_cls := h1_callback idle_phase;
     handle_write_cls := h1_callback write_phase |}.

(** ** The 32-bit big-endian round trip *)

Lemma testbit_255 (n : Z) : 0 <= n -> Z.testbit 255 n = (n <? 8).
Proof.
  intros Hn. change 255 with (Z.ones 8).
  apply Z.testbit_ones_nonneg; lia.
Qed.

Lemma testbit_uint32_max (n : Z) : 0 <= n -> Z.testbit 4294967295 n = (n <? 32).
Proof.
  intros Hn. change 4294967295 with (Z.ones 32).
  apply Z.testbit_ones_nonneg; lia.
Qed.

Lemma uint32_t_mod (v : Z) : uint32_t v = v mod 2 ^ 32.
Proof. unfold uint32_t. change 4294967295 with (Z.ones 32). apply Z.land_ones. lia. Qed.

Lemma uint32_t_uint8_t (b : Z) : uint32_t (uint8_t b) = uint8_t b.
Proof.
  unfold uint32_t, uint8_t. rewrite <- Z.land_assoc. reflexivity.
Qed.

(** The four bytes of a 32-bit value, most significant first, put the value
    together again. *)
Lemma be32_recompose (v : Z) :
  Z.lor (Z.lor (Z.lor (Z.shiftl (uint8_t (Z.shiftr (uint32_t v) 24)) 24)
                      (Z.shiftl (uint8_t (Z.shiftr (uint32_t v) 16)) 16))
               (Z.shiftl (uint8_t (Z.shiftr (uint32_t v) 8)) 8))
        (uint8_t (uint32_t v))
  = uint32_t v.
Proof.
  unfold uint8_t, uint32_t.
  apply Z.bits_inj'. intros n Hn.
  rewrite !Z.lor_spec, !Z.shiftl_spec, !Z.land_spec by lia.
  rewrite (testbit_uint32_max n), (testbit_255 n) by lia.
  destruct (Z.ltb_spec n 8) as [H8|H8].
  { rewrite !(Z.testbit_neg_r _ (n - _)) by lia.
    destruct (Z.ltb_spec n 32); [| lia].
    simpl. rewrite !andb_true_r. reflexivity. }
  rewrite andb_false_r, orb_false_r.
  rewrite (Z.shiftr_spec _ 8 (n - 8)), Z.land_spec by lia.
  rewrite testbit_uint32_max, (testbit_255 (n - 8)) by lia.
  replace (n - 8 + 8) with n by lia.
  destruct (Z.ltb_spec n 16) as [H16|H16].
  { rewrite !(Z.testbit_neg_r _ (n - 16)), !(Z.testbit_neg_r _ (n - 24)) by lia.
    destruct (Z.ltb_spec n 32); destruct (Z.ltb_spec (n - 8) 8); try lia.
    simpl. rewrite !andb_true_r. reflexivity. }
  destruct (Z.ltb_spec (n - 8) 8); [lia |].
  rewrite andb_false_r, orb_false_r.
  rewrite (Z.shiftr_spec _ 16 (n - 16)), Z.land_spec by lia.
  rewrite testbit_uint32_max, (testbit_255 (n - 16)) by lia.
  replace (n - 16 + 16) with n by lia.
  destruct (Z.ltb_spec n 24) as [H24|H24].
  { rewrite !(Z.testbit_neg_r _ (n - 24)) by lia.
    destruct (Z.ltb_spec n 32); destruct (Z.ltb_spec (n - 16) 8); try lia.
    simpl. rewrite !andb_true_r. reflexivity. }
  destruct (Z.ltb_spec (n - 16) 8); [lia |].
  rewrite andb_false_r, orb_false_r.
  rewrite (Z.shiftr_spec _ 24 (n - 24)), Z.land_spec by lia.
  rewrite testbit_uint32_max, (testbit_255 (n - 24)) by lia.
  replace (n - 24 + 24) with n by lia.
  destruct (Z.ltb_spec n 32); destruct (Z.ltb_spec (n - 24) 8); try lia;
    rewrite ?andb_false_r, ?andb_true_r; reflexivity.
Qed.

Lemma store_uint8_in_range (mem : list Z) (addr i : nat) (b : Z) :
  (addr + i < length mem)%nat ->
  store_uint8 mem addr i b = Some (<[(addr + i)%nat := uint8_t b]> mem).
Proof. intros H. unfold store_uint8. rewrite decide_True; [reflexivity | exact H]. Qed.

Lemma load_after_store (mem : list Z) (i j : nat) (b : Z) :
  (i < length mem)%nat ->
  <[i := b]> mem !! j = if decide (i = j) then Some b else mem !! j.
Proof.
  intros H. destruct (decide (i = j)) as [->|Hne].
  - apply list_lookup_insert_eq. exact H.
  - apply list_lookup_insert_ne. exact Hne.
Qed.

Ltac store_load_step :=
  first
    [ rewrite store_uint8_in_range by (rewrite ?length_insert; lia)
    | rewrite load_after_store by (rewrite ?length_insert; lia)
    | rewrite decide_True by lia
    | rewrite decide_False by lia ];
  cbn [mbind option_bind].

Lemma put_32bit_be_layout (host : byte_order) (mem : list Z) (addr : nat)
    (v : Z) :
  (addr + 4 <= length mem)%nat ->
  exists mem',
    _MHD_PUT_32BIT_BE host mem addr v = Some mem'
    /\ length mem' = length mem
    /\ mem' !! (addr + 0)%nat = Some (uint8_t (Z.shiftr (uint32_t v) 24))
    /\ mem' !! (addr + 1)%nat = Some (uint8_t (Z.shiftr (uint32_t v) 16))
    /\ mem' !! (addr + 2)%nat = Some (uint8_t (Z.shiftr (uint32_t v) 8))
    /\ mem' !! (addr + 3)%nat = Some (uint8_t (uint32_t v)).
Proof.
  intros Hlen. unfold _MHD_PUT_32BIT_BE.
  destruct (decide (host = _MHD_BIG_ENDIAN)) as [->|Hhost].
  - unfold store_uint32_native, native_layout.
    repeat store_load_step.
    eexists; split; [reflexivity |].
    rewrite !length_insert. split; [reflexivity |].
    repeat split; repeat store_load_step; reflexivity.
  - repeat store_load_step.
    eexists; split; [reflexivity |].
    rewrite !length_insert. split; [reflexivity |].
    repeat split; repeat store_load_step; reflexivity.
Qed.

Lemma get_32bit_be_of_layout (host : byte_order) (mem : list Z) (addr : nat)
    (v : Z) :
  mem !! (addr + 0)%nat = Some (uint8_t (Z.shiftr (uint32_t v) 24)) ->
  mem !! (addr + 1)%nat = Some (uint8_t (Z.shiftr (uint32_t v) 16)) ->
  mem !! (addr + 2)%nat = Some (uint8_t (Z.shiftr (uint32_t v) 8)) ->
  mem !! (addr + 3)%nat = Some (uint8_t (uint32_t v)) ->
  _MHD_GET_32BIT_BE host mem addr = Some (uint32_t v).
Proof.
  intros H0 H1 H2 H3. unfold _MHD_GET_32BIT_BE.
  destruct (decide (host = _MHD_BIG_ENDIAN)) as [->|Hhost].
  - unfold load_uint32_native, load_uint8. rewrite H0, H1, H2, H3.
    cbn [mbind option_bind]. f_equal. apply be32_recompose.
  - unfold load_uint8. rewrite H0, H1, H2, H3.
    cbn [mbind option_bind]. f_equal.
    rewrite !uint32_t_uint8_t, be32_recompose.
    unfold uint32_t. rewrite <- Z.land_assoc, Z.land_diag. reflexivity.
Qed.

(** C10. A 32-bit value written with [_MHD_PUT_32BIT_BE] into a buffer that
    has room for it is read back by [_MHD_GET_32BIT_BE], whatever the byte
    order of the host: the value read is the value written modulo [2^32],
    hence the value itself when it is a 32-bit value. *)
Theorem put_get_32bit_be_roundtrip (host : byte_order) (mem : list Z)
    (addr : nat) (v : Z) :
  (addr + 4 <= length mem)%nat ->
  exists mem',
    _MHD_PUT_32BIT_BE host mem addr v = Some mem'
    /\ _MHD_GET_32BIT_BE host mem' addr = Some (v mod 2 ^ 32)
    /\ (0 <= v < 2 ^ 32 -> _MHD_GET_32BIT_BE host mem' addr = Some v).
Proof.
  intros Hlen.
  destruct (put_32bit_be_layout host mem addr v Hlen)
    as (mem' & Hput & _ & H0 & H1 & H2 & H3).
  exists mem'. split; [exact Hput |].
  pose proof (get_32bit_be_of_layout host mem' addr v H0 H1 H2 H3) as Hget.
  rewrite uint32_t_mod in Hget. split; [exact Hget |].
  intros Hv. rewrite Hget. f_equal. apply Z.mod_small. exact Hv.
Qed.

Lemma put_get_32bit_be_roundtrip_witness :
  exists mem',
    _MHD_PUT_32BIT_BE _MHD_LITTLE_ENDIAN [0; 0; 0; 0; 0; 0] 1 305419896
      = Some mem'
    /\ _MHD_GET_32BIT_BE _MHD_LITTLE_ENDIAN mem' 1
       = Some (305419896 mod 2 ^ 32)
    /\ (0 <= 305419896 < 2 ^ 32 ->
        _MHD_GET_32BIT_BE _MHD_LITTLE_ENDIAN mem' 1 = Some 305419896).
Proof.
  apply (put_get_32bit_be_roundtrip _MHD_LITTLE_ENDIAN [0; 0; 0; 0; 0; 0] 1
           305419896).
  simpl. lia.
Defined.

Example put_32bit_be_bytes :
  _MHD_PUT_32BIT_BE _MHD_LITTLE_ENDIAN [0; 0; 0; 0; 0; 0] 1 305419896
  = Some [0; 18; 52; 86; 120; 0].
Proof. reflexivity. Qed.

(** ** Protocol negotiation *)

Lemma memcmp_spec (n : nat) : forall s1 s2 : list Z,
  (n <= length s1)%nat -> (n <= length s2)%nat ->
  exists r, memcmp s1 s2 n = Some r /\ (r = 0 <-> take n s1 = take n s2).
Proof.
  induction n as [|n IH]; intros s1 s2 H1 H2.
  - exists 0. split; [reflexivity |]. rewrite !take_0. tauto.
  - destruct s1 as [|a s1]; [simpl in H1; lia |].
    destruct s2 as [|b s2]; [simpl in H2; lia |].
    simpl in H1, H2. cbn [memcmp take].
    destruct (Z.eqb_spec a b) as [->|Hab].
    + destruct (IH s1 s2 ltac:(lia) ltac:(lia)) as (r & Hr & Hiff).
      exists r. split; [exact Hr |]. rewrite Hiff.
      split; [intros ->; reflexivity | intros H; injection H; tauto].
    + exists (a - b). split; [reflexivity |].
      split; [lia | intros H; injection H; intros; contradiction].
Qed.

Lemma H2_MAGIC_TOKEN_length : length H2_MAGIC_TOKEN = 24%nat.
Proof. reflexivity. Qed.

Lemma lnot_zero : lnot 0 = MHD_YES.
Proof. reflexivity. Qed.

Lemma lnot_nonzero (r : Z) : r <> 0 -> lnot r = MHD_NO.
Proof. intros H. unfold lnot. destruct (Z.eqb_spec r 0); [contradiction | reflexivity]. Qed.

(** The comparison of the first [n] bytes of the token with a buffer that
    holds them and agrees with the token on them. *)
Lemma memcmp_token_match (buf : list Z) (n : nat) :
  (n <= 24)%nat -> take n buf = take n H2_MAGIC_TOKEN ->
  memcmp H2_MAGIC_TOKEN buf n = Some 0.
Proof.
  intros Hn Heq.
  assert (Hlen : (n <= length buf)%nat).
  { apply (f_equal length) in Heq. rewrite !length_take in Heq.
    rewrite H2_MAGIC_TOKEN_length in Heq. lia. }
  destruct (memcmp_spec n H2_MAGIC_TOKEN buf) as (r & Hr & Hiff);
    [rewrite H2_MAGIC_TOKEN_length; lia | exact Hlen |].
  rewrite Hr. f_equal. apply Hiff. symmetry. exact Heq.
Qed.

(** The same comparison with a buffer that differs from the token at an index
    below 16. *)
Lemma memcmp_token_mismatch (buf : list Z) (n i : nat) :
  (16 <= n <= 24)%nat -> (n <= length buf)%nat ->
  (i < 16)%nat -> buf !! i <> H2_MAGIC_TOKEN !! i ->
  exists r, memcmp H2_MAGIC_TOKEN buf n = Some r /\ r <> 0.
Proof.
  intros Hn Hlen Hi Hdiff.
  destruct (memcmp_spec n H2_MAGIC_TOKEN buf) as (r & Hr & Hiff);
    [rewrite H2_MAGIC_TOKEN_length; lia | exact Hlen |].
  exists r. split; [exact Hr |]. intros Hz. apply Hdiff.
  apply Hiff in Hz.
  rewrite <- (lookup_take_lt buf n i), <- (lookup_take_lt H2_MAGIC_TOKEN n i)
    by lia.
  rewrite Hz. reflexivity.
Qed.

(** C1. [h2_is_h2_preface] answers [MHD_YES] (multiplexed mode) when the read
    buffer holds at least 24 bytes and its first 24 bytes are the magic
    token, and when it holds 16 to 23 bytes and its first 16 bytes are the
    first 16 bytes of the token; it answers [MHD_NO] (single-stream mode) for
    every buffer that differs from the token at one of the first 16
    positions. *)
Theorem h2_is_h2_preface_negotiation (c : MHD_Connection) (buf : list Z) :
  read_buffer c = Some buf ->
  (H2_MAGIC_TOKEN_LEN <= read_buffer_offset c ->
   take 24 buf = H2_MAGIC_TOKEN ->
   h2_is_h2_preface c = Some MHD_YES)
  /\ (H2_MAGIC_TOKEN_LEN_MIN <= read_buffer_offset c < H2_MAGIC_TOKEN_LEN ->
      take 16 buf = take 16 H2_MAGIC_TOKEN ->
      h2_is_h2_preface c = Some MHD_YES)
  /\ (read_buffer_offset c <= Z.of_nat (length buf) ->
      (exists i, (i < 16)%nat /\ buf !! i <> H2_MAGIC_TOKEN !! i) ->
      h2_is_h2_preface c = Some MHD_NO).
Proof.
  intros Hbuf. unfold h2_is_h2_preface, H2_MAGIC_TOKEN_LEN,
    H2_MAGIC_TOKEN_LEN_MIN. rewrite Hbuf. cbn [mbind option_bind].
  change (Z.to_nat 24) with 24%nat. change (Z.to_nat 16) with 16%nat.
  split; [| split].
  - intros Hoff Heq.
    destruct (Z.leb_spec 24 (read_buffer_offset c)); [| lia].
    rewrite (memcmp_token_match buf 24); [reflexivity | lia |].
    rewrite Heq. symmetry. apply take_ge. rewrite H2_MAGIC_TOKEN_length. lia.
  - intros Hoff Heq.
    destruct (Z.leb_spec 24 (read_buffer_offset c)); [lia |].
    destruct (Z.leb_spec 16 (read_buffer_offset c)); [| lia].
    rewrite (memcmp_token_match buf 16); [reflexivity | lia | exact Heq].
  - intros Hlen (i & Hi & Hdiff).
    destruct (Z.leb_spec 24 (read_buffer_offset c)).
    + destruct (memcmp_token_mismatch buf 24 i) as (r & Hr & Hnz);
        [lia | lia | exact Hi | exact Hdiff |].
      rewrite Hr. cbn [mbind option_bind].
      rewrite lnot_nonzero by exact Hnz. reflexivity.
    + destruct (Z.leb_spec 16 (read_buffer_offset c)); [| reflexivity].
      destruct (memcmp_token_mismatch buf 16 i) as (r & Hr & Hnz);
        [lia | lia | exact Hi | exact Hdiff |].
      rewrite Hr. cbn [mbind option_bind].
      rewrite lnot_nonzero by exact Hnz. reflexivity.
Qed.

Lemma h2_is_h2_preface_negotiation_witness :
  h2_is_h2_preface (connection_holding H2_MAGIC_TOKEN) = Some MHD_YES
  /\ h2_is_h2_preface (connection_holding (take 16 H2_MAGIC_TOKEN))
     = Some MHD_YES
  /\ h2_is_h2_preface
       (connection_holding (<[15%nat := 32]> (take 16 H2_MAGIC_TOKEN)))
     = Some MHD_NO.
Proof.
  split; [| split].
  - apply (proj1 (h2_is_h2_preface_negotiation
                    (connection_holding H2_MAGIC_TOKEN) H2_MAGIC_TOKEN
                    eq_refl)).
    + vm_compute. intros H. discriminate H.
    + reflexivity.
  - apply (proj1 (proj2 (h2_is_h2_preface_negotiation
                           (connection_holding (take 16 H2_MAGIC_TOKEN))
                           (take 16 H2_MAGIC_TOKEN) eq_refl))).
    + vm_compute. split; [intros H; discriminate H | reflexivity].
    + reflexivity.
  - apply (proj2 (proj2 (h2_is_h2_preface_negotiation
                           (connection_holding
                              (<[15%nat := 32]> (take 16 H2_MAGIC_TOKEN)))
                           (<[15%nat := 32]> (take 16 H2_MAGIC_TOKEN))
                           eq_refl))).
    + vm_compute. intros H. discriminate H.
    + exists 15%nat. split; [lia | vm_compute; intros H; discriminate H].
Defined.

Example h2_is_h2_preface_get_request :
  h2_is_h2_preface
    (connection_holding (bytes_of_string ("GET / HTTP/1.1" ++ CRLF ++ CRLF)))
  = Some MHD_NO.
Proof. reflexivity. Qed.

(** ** Would-block transparency *)

Lemma try_grow_read_buffer_frame (w : Collaborators) (c : MHD_Connection) :
  same_offsets_and_state c (try_grow_read_buffer w c)
  /\ h2 (try_grow_read_buffer w c) = h2 c
  /\ calls (try_grow_read_buffer w c) = calls c.
Proof.
  unfold try_grow_read_buffer, same_offsets_and_state.
  destruct (MHD_pool_reallocate w c) as [[buf new_size]|]; cbn; tauto.
Qed.

Lemma same_offsets_and_state_refl (c : MHD_Connection) :
  same_offsets_and_state c c.
Proof. unfold same_offsets_and_state. tauto. Qed.

Lemma read_from_socket_would_block (w : Collaborators) (c : MHD_Connection) :
  (forall c' offset len, fst (recv_cls w c' offset len) = MHD_ERR_AGAIN_) ->
  read_from_socket w c = c.
Proof.
  intros Hagain. unfold read_from_socket.
  destruct (h2 c); [| reflexivity].
  specialize (Hagain c (read_buffer_offset c)
                (size_sub (read_buffer_size c) (read_buffer_offset c))).
  destruct (recv_cls w c _ _) as [bytes_read data]. simpl in Hagain.
  subst bytes_read. reflexivity.
Qed.

(** C8. When the read primitive answers would-block, the read phase leaves
    the four buffer offsets and the lifecycle state as they were; when the
    write buffer holds pending bytes and the write primitive, asked to send
    them, answers would-block, the write phase leaves the whole connection,
    and so the four offsets and the state, as it was. *)
Theorem would_block_transparency (w : Collaborators) (c : MHD_Connection) :
  ((forall c' offset len, fst (recv_cls w c' offset len) = MHD_ERR_AGAIN_) ->
   same_offsets_and_state c (h2_connection_handle_read w c)
   /\ calls (h2_connection_handle_read w c) = calls c)
  /\ ((forall c' data len, send_cls w c' data len = MHD_ERR_AGAIN_) ->
      0 < size_sub (write_buffer_append_offset c) (write_buffer_send_offset c) ->
      h2_connection_handle_write w c = c
      /\ same_offsets_and_state c (h2_connection_handle_write w c)).
Proof.
  split.
  - intros Hagain. unfold h2_connection_handle_read.
    destruct (bool_decide (MHD_CONNECTION_CLOSED = state c) || suspended c).
    { split; [apply same_offsets_and_state_refl | reflexivity]. }
    destruct (try_grow_read_buffer_frame w c) as (Hsame & _ & Hcalls).
    destruct (read_buffer_size c
                <? size_add (read_buffer_offset c) (pool_increment c)).
    + destruct (read_buffer_size (try_grow_read_buffer w c)
                  =? read_buffer_offset (try_grow_read_buffer w c)).
      * split; assumption.
      * rewrite read_from_socket_would_block by exact Hagain.
        split; assumption.
    + destruct (read_buffer_size c =? read_buffer_offset c).
      * split; [apply same_offsets_and_state_refl | reflexivity].
      * rewrite read_from_socket_would_block by exact Hagain.
        split; [apply same_offsets_and_state_refl | reflexivity].
  - intros Hagain Hpending.
    assert (Hw : h2_connection_handle_write w c = c).
    { unfold h2_connection_handle_write, flush_write_buffer.
      destruct (h2 c); [| reflexivity].
      destruct (Z.ltb_spec 0
                  (size_sub (write_buffer_append_offset c)
                            (write_buffer_send_offset c))); [| lia].
      rewrite Hagain. reflexivity. }
    split; [exact Hw |]. rewrite Hw. apply same_offsets_and_state_refl.
Qed.

Lemma would_block_transparency_witness :
  same_offsets_and_state (sample_connection 20 10)
    (h2_connection_handle_read peer_would_block
       (sample_connection 20 10))
  /\ h2_connection_handle_write peer_would_block
       (set_write_buffer_append_offset 12 (sample_connection 20 10))
     = set_write_buffer_append_offset 12 (sample_connection 20 10).
Proof.
  split.
  - apply (proj1 (would_block_transparency peer_would_block
                    (sample_connection 20 10))).
    intros c' offset len. reflexivity.
  - apply (proj2 (would_block_transparency peer_would_block
                    (set_write_buffer_append_offset 12
                       (sample_connection 20 10)))).
    + intros c' data len. reflexivity.
    + vm_compute. reflexivity.
Defined.

(** ** The write phase *)

Lemma flush_write_buffer_continues (w : Collaborators) (c c1 : MHD_Connection) :
  flush_write_buffer w c = inr c1 ->
  state c1 = state c /\ calls c1 = calls c /\ h2 c1 = h2 c
  /\ write_buffer c1 = write_buffer c
  /\ write_buffer_size c1 = write_buffer_size c.
Proof.
  unfold flush_write_buffer.
  destruct (0 <? size_sub (write_buffer_append_offset c)
                          (write_buffer_send_offset c)).
  - destruct (send_cls w c _ _ <? 0).
    + destruct (MHD_ERR_AGAIN_ =? _); discriminate.
    + cbn. destruct (_ =? 0); intros H; injection H as <-; cbn; tauto.
  - intros H; injection H as <-. tauto.
Qed.

Lemma session_finished_iff (h2s : h2_session_t) (c : MHD_Connection) :
  session_finished h2s c = true
  <-> nghttp2_session_want_read (session h2s) = 0
      /\ nghttp2_session_want_write (session h2s) = 0
      /\ size_sub (write_buffer_append_offset c) (write_buffer_send_offset c)
         = 0.
Proof.
  unfold session_finished. rewrite !andb_true_iff, !Z.eqb_eq. tauto.
Qed.

(** C7. In a write phase that gets as far as the final test (a session
    exists, the flush does not return early and the encoder reports success),
    the connection is closed with the termination reason "completed
    successfully" when the session wants neither to read nor to write and the
    write buffer is fully flushed; when one of the three conditions fails,
    the step closes nothing: lifecycle state, session and the record of
    closures are as they were. *)
Theorem write_phase_completion (w : Collaborators) (c c1 : MHD_Connection)
    (h2s : h2_session_t) :
  h2 c = Some h2s ->
  flush_write_buffer w c = inr c1 ->
  fill_rv (h2_fill_write_buffer w h2s c1) = 0 ->
  let filled := h2_fill_write_buffer w h2s c1 in
  let c2 := fill_write_buffer filled c1 in
  let finished :=
    nghttp2_session_want_read (session (fill_h2 filled)) = 0
    /\ nghttp2_session_want_write (session (fill_h2 filled)) = 0
    /\ size_sub (write_buffer_append_offset c2) (write_buffer_send_offset c2)
       = 0 in
  (finished ->
   h2_connection_handle_write w c
     = MHD_connection_close_ c2 MHD_REQUEST_TERMINATED_COMPLETED_OK
   /\ state (h2_connection_handle_write w c) = MHD_CONNECTION_CLOSED
   /\ calls (h2_connection_handle_write w c)
      = calls c ++ [connection_closed MHD_REQUEST_TERMINATED_COMPLETED_OK])
  /\ (~ finished ->
      state (h2_connection_handle_write w c) = state c
      /\ h2 (h2_connection_handle_write w c) = Some (fill_h2 filled)
      /\ calls (h2_connection_handle_write w c) = calls c).
Proof.
  intros Hh2 Hflush Hfill filled c2 finished.
  destruct (flush_write_buffer_continues w c c1 Hflush)
    as (Hstate & Hcalls & _).
  assert (Hrun : h2_connection_handle_write w c
                 = finish_write w (fill_h2 filled) c2).
  { unfold h2_connection_handle_write. rewrite Hh2, Hflush.
    fold filled. fold c2. unfold filled at 1. rewrite Hfill. reflexivity. }
  rewrite Hrun. unfold finish_write.
  pose proof (session_finished_iff (fill_h2 filled) c2) as Hiff.
  fold finished in Hiff.
  split.
  - intros Hfin. rewrite (proj2 Hiff Hfin).
    split; [reflexivity |]. split; [reflexivity |].
    cbn. rewrite Hcalls. reflexivity.
  - intros Hnot. destruct (session_finished (fill_h2 filled) c2).
    + exfalso. apply Hnot, Hiff. reflexivity.
    + cbn. rewrite Hstate, Hcalls. tauto.
Qed.

Lemma write_phase_completion_witness :
  state
    (h2_connection_handle_write
       (session_encodes 5) (sample_connection 20 0))
  = MHD_CONNECTION_ACTIVE
  /\ calls
       (h2_connection_handle_write (session_encodes 5)
          (sample_connection 20 0))
     = [].
Proof.
  pose proof (write_phase_completion (session_encodes 5)
                (sample_connection 20 0) (sample_connection 20 0)
                sample_session eq_refl eq_refl eq_refl) as [_ Hopen].
  destruct Hopen as (Hstate & _ & Hcalls).
  - vm_compute. intros (H & _). discriminate H.
  - split; [exact Hstate | exact Hcalls].
Defined.

Example write_phase_completed_ok :
  let c :=
    set_h2
      (Some {| session := {| stream_user_data := ∅; want_read := 0;
                             want_write := 0 |};
               session_id := 1; accepted_max := 7; current_stream_id := 7 |})
      (set_write_buffer_append_offset 12 (sample_connection 20 0)) in
  let c' :=
    h2_connection_handle_write (session_encodes 0) c in
  state c' = MHD_CONNECTION_CLOSED
  /\ calls c' = [connection_closed MHD_REQUEST_TERMINATED_COMPLETED_OK].
Proof. split; reflexivity. Qed.

(** ** The idle phase *)

(** The [ssize_t] difference of the read offsets, converted to the [size_t]
    parameter of the decoder, is their [size_t] difference. *)
Lemma inlen_size_sub (a b : Z) : to_size (to_ssize (size_sub a b)) = size_sub a b.
Proof.
  unfold size_sub, to_ssize, to_size.
  pose proof (Z.mod_pos_bound (a - b) SIZE_MODULUS eq_refl) as Hr.
  destruct (_ <? _).
  - apply Z.mod_small. exact Hr.
  - rewrite <- (Z.mod_add _ 1) by discriminate.
    replace ((a - b) mod SIZE_MODULUS - SIZE_MODULUS + 1 * SIZE_MODULUS)
      with ((a - b) mod SIZE_MODULUS) by lia.
    apply Z.mod_small. exact Hr.
Qed.

(** C6. When the decoder answers a negative result in the idle phase, the
    phase submits one GOAWAY frame that names [accepted_max] of the session,
    calls [nghttp2_session_send] once, closes the connection with the error
    termination reason, and returns [MHD_NO]. *)
Theorem idle_decode_error (w : Collaborators) (c : MHD_Connection)
    (h2s h2s' : h2_session_t) (rv : Z) :
  h2 c = Some h2s ->
  state c <> MHD_CONNECTION_CLOSED ->
  nghttp2_session_mem_recv w h2s
    (buffer_slice (read_buffer c) (read_buffer_start_offset c)
       (size_sub (read_buffer_offset c) (read_buffer_start_offset c)))
    (size_sub (read_buffer_offset c) (read_buffer_start_offset c))
  = (rv, h2s') ->
  rv < 0 ->
  snd (h2_connection_handle_idle w c) = MHD_NO
  /\ calls (fst (h2_connection_handle_idle w c))
     = calls c
       ++ [goaway_submitted NGHTTP2_FLAG_NONE (accepted_max h2s')
             NGHTTP2_PROTOCOL_ERROR;
           session_send_called;
           connection_closed MHD_REQUEST_TERMINATED_WITH_ERROR]
  /\ state (fst (h2_connection_handle_idle w c)) = MHD_CONNECTION_CLOSED
  /\ h2 (fst (h2_connection_handle_idle w c)) = None.
Proof.
  intros Hh2 Hstate Hrecv Hrv.
  unfold h2_connection_handle_idle. cbn [h2 set_in_idle state read_buffer
    read_buffer_offset read_buffer_start_offset].
  rewrite Hh2. rewrite bool_decide_eq_false_2 by exact Hstate.
  rewrite inlen_size_sub, Hrecv.
  destruct (Z.ltb_spec rv 0); [| lia].
  cbn. rewrite <- !app_assoc. tauto.
Qed.

Lemma idle_decode_error_witness :
  snd (h2_connection_handle_idle (decoder_answers (-903))
         (sample_connection 20 10))
  = MHD_NO
  /\ calls (fst (h2_connection_handle_idle (decoder_answers (-903))
                   (sample_connection 20 10)))
     = [goaway_submitted 0 7 1; session_send_called;
        connection_closed MHD_REQUEST_TERMINATED_WITH_ERROR].
Proof.
  pose proof (idle_decode_error (decoder_answers (-903))
                (sample_connection 20 10) sample_session sample_session
                (-903) eq_refl) as H.
  destruct H as (Hret & Hcalls & _).
  - discriminate.
  - reflexivity.
  - lia.
  - split; [exact Hret | exact Hcalls].
Defined.

(** ** Response queueing *)

Lemma MHD_str_equal_caseless_refl (s : string) :
  MHD_str_equal_caseless_ s s = true.
Proof.
  induction s as [|ch s IH]; [reflexivity |].
  cbn. rewrite Ascii.eqb_refl. exact IH.
Qed.

Lemma body_not_allowed_iff (stream : h2_stream_t) (status_code : Z) :
  body_not_allowed stream status_code = true
  <-> no_body_case stream status_code.
Proof.
  unfold body_not_allowed, no_body_case.
  rewrite !orb_true_iff, Z.ltb_lt, !Z.eqb_eq.
  destruct (method stream) as [m|].
  - split.
    + intros [[[H|H]|H]|H]; [left; exists m; tauto | tauto | | ];
        right; right; [left | right]; symmetry; exact H.
    + intros [(m' & Hm & H)|[H|[H|H]]];
        [injection Hm as <-; tauto | tauto | |];
        [left; right | right]; symmetry; exact H.
  - split.
    + intros [[[H|H]|H]|H]; [discriminate | tauto | | ];
        right; right; [left | right]; symmetry; exact H.
    + intros [(m' & Hm & H)|[H|[H|H]]];
        [discriminate | tauto | |];
        [left; right | right]; symmetry; exact H.
Qed.

(** A run against the claim as first written: the request method of the
    stream is "head", which is not the method "HEAD", the status code is 200,
    and the bind moves [response_write_position] from 0 to the total size of
    the response, 100. *)
Lemma h2_queue_response_write_position_counterexample :
  method (sample_stream (Some "head"%string)) <> Some MHD_HTTP_METHOD_HEAD
  /\ ~ (200 < MHD_HTTP_OK \/ 200 = MHD_HTTP_NO_CONTENT
        \/ 200 = MHD_HTTP_NOT_MODIFIED)
  /\ response_write_position (sample_stream (Some "head"%string)) = 0
  /\ total_size sample_response = 100
  /\ queued_write_position
       (h2_queue_response (session_encodes 0)
          (connection_with_stream (sample_stream (Some "head"%string)))
          200 sample_response)
     = Some 100.
Proof.
  split; [intros H; discriminate H |].
  split; [vm_compute; intros [H | [H | H]]; discriminate H |].
  split; [reflexivity |]. split; reflexivity.
Qed.

(** C5, amended. When [h2_queue_response] finds the current stream, the
    stream it leaves in the session has [response_write_position] equal to
    the total size of the response if the request method is HEAD compared
    without regard to the case of its letters (so in particular for the
    method "HEAD"), or the status code is below 200, or is 204, or is 304,
    whatever the size of the body; in every other case
    [response_write_position] is what it was. *)
Theorem h2_queue_response_write_position (w : Collaborators)
    (c : MHD_Connection) (h2s : h2_session_t) (stream : h2_stream_t)
    (status_code : Z) (response0 : MHD_Response) :
  h2 c = Some h2s ->
  nghttp2_session_get_stream_user_data (session h2s) (current_stream_id h2s)
  = Some stream ->
  exists c' r h2s' stream',
    h2_queue_response w c status_code response0 = Some (c', r)
    /\ h2 c' = Some h2s'
    /\ nghttp2_session_get_stream_user_data (session h2s')
         (current_stream_id h2s') = Some stream'
    /\ (no_body_case stream status_code ->
        response_write_position stream' = total_size response0)
    /\ (method stream = Some MHD_HTTP_METHOD_HEAD ->
        response_write_position stream' = total_size response0)
    /\ (~ no_body_case stream status_code ->
        response_write_position stream' = response_write_position stream).
Proof.
  intros Hh2 Hstream.
  set (stream' := bind_response stream status_code response0).
  set (h2s' := set_stream_user_data (current_stream_id h2s) stream' h2s).
  assert (Hlookup : nghttp2_session_get_stream_user_data (session h2s')
                      (current_stream_id h2s') = Some stream').
  { unfold nghttp2_session_get_stream_user_data, h2s'. cbn.
    apply lookup_insert_eq. }
  assert (Hyes : no_body_case stream status_code ->
                 response_write_position stream' = total_size response0).
  { intros Hcase. apply body_not_allowed_iff in Hcase.
    unfold stream', bind_response.
    change (body_not_allowed
              (set_stream_response (MHD_increment_response_rc response0)
                 status_code stream) status_code)
      with (body_not_allowed stream status_code).
    rewrite Hcase. reflexivity. }
  assert (Hno : ~ no_body_case stream status_code ->
                response_write_position stream'
                = response_write_position stream).
  { intros Hcase. unfold stream', bind_response.
    change (body_not_allowed
              (set_stream_response (MHD_increment_response_rc response0)
                 status_code stream) status_code)
      with (body_not_allowed stream status_code).
    destruct (body_not_allowed stream status_code) eqn:Hb.
    - exfalso. apply Hcase, body_not_allowed_iff. exact Hb.
    - reflexivity. }
  assert (Hhead : method stream = Some MHD_HTTP_METHOD_HEAD ->
                  response_write_position stream' = total_size response0).
  { intros Hm. apply Hyes. left. exists MHD_HTTP_METHOD_HEAD.
    split; [exact Hm | apply MHD_str_equal_caseless_refl]. }
  unfold h2_queue_response. rewrite Hh2, Hstream.
  fold stream'. fold h2s'.
  destruct (negb (h2_session_build_stream_headers w h2s' stream'
                    (MHD_increment_response_rc response0) =? 0)).
  - exists (set_h2 (Some h2s') c), MHD_NO, h2s', stream'.
    repeat split; assumption.
  - exists (set_event_loop_info MHD_EVENT_LOOP_INFO_WRITE
              (set_h2 (Some h2s') c)), MHD_YES, h2s', stream'.
    repeat split; assumption.
Qed.

Lemma h2_queue_response_write_position_witness :
  exists c' r h2s' stream',
    h2_queue_response (session_encodes 0)
      (connection_with_stream (sample_stream (Some "HEAD"%string)))
      200 sample_response
    = Some (c', r)
    /\ h2 c' = Some h2s'
    /\ nghttp2_session_get_stream_user_data (session h2s')
         (current_stream_id h2s') = Some stream'
    /\ response_write_position stream' = 100.
Proof.
  destruct (h2_queue_response_write_position (session_encodes 0)
              (connection_with_stream (sample_stream (Some "HEAD"%string)))
              (session_with_stream (sample_stream (Some "HEAD"%string)))
              (sample_stream (Some "HEAD"%string)) 200 sample_response
              eq_refl eq_refl)
    as (c' & r & h2s' & stream' & Hq & Hh2 & Hs & _ & Hhead & _).
  exists c', r, h2s', stream'.
  split; [exact Hq |]. split; [exact Hh2 |]. split; [exact Hs |].
  apply Hhead. reflexivity.
Defined.

Example queue_head_request :
  queued_write_position
    (h2_queue_response (session_encodes 0)
       (connection_with_stream (sample_stream (Some "HEAD"%string)))
       200 sample_response)
  = Some 100.
Proof. reflexivity. Qed.

Example queue_get_request :
  queued_write_position
    (h2_queue_response (session_encodes 0)
       (connection_with_stream (sample_stream (Some "GET"%string)))
       200 sample_response)
  = Some 0.
Proof. reflexivity. Qed.

Example queue_get_not_modified :
  queued_write_position
    (h2_queue_response (session_encodes 0)
       (connection_with_stream (sample_stream (Some "GET"%string)))
       304 sample_response)
  = Some 100.
Proof. reflexivity. Qed.

Example queue_lower_case_head :
  queued_write_position
    (h2_queue_response (session_encodes 0)
       (connection_with_stream (sample_stream (Some "head"%string)))
       200 sample_response)
  = Some 100.
Proof. reflexivity. Qed.

(** ** Readiness interest after the write phase *)

(** C3, the code at a failing input.  The write buffer is empty, the encoder
    appends ten bytes and the session still wants to read: the write phase
    closes nothing, ten bytes are left unflushed, and the readiness interest
    it reports is "read". *)
Theorem write_phase_pending_output_interest :
  state (h2_connection_handle_write (session_encodes 10)
           (sample_connection 20 0))
  = MHD_CONNECTION_ACTIVE
  /\ calls (h2_connection_handle_write (session_encodes 10)
              (sample_connection 20 0))
     = []
  /\ size_sub
       (write_buffer_append_offset
          (h2_connection_handle_write (session_encodes 10)
             (sample_connection 20 0)))
       (write_buffer_send_offset
          (h2_connection_handle_write (session_encodes 10)
             (sample_connection 20 0)))
     = 10
  /\ event_loop_info
       (h2_connection_handle_write (session_encodes 10)
          (sample_connection 20 0))
     = MHD_EVENT_LOOP_INFO_READ.
Proof. repeat split; reflexivity. Qed.

(** Whenever the write phase runs to its end without closing the connection,
    the readiness interest it leaves is "read", pending output or not. *)
Lemma write_phase_interest (w : Collaborators) (c c1 : MHD_Connection)
    (h2s : h2_session_t) :
  h2 c = Some h2s ->
  flush_write_buffer w c = inr c1 ->
  fill_rv (h2_fill_write_buffer w h2s c1) = 0 ->
  session_finished (fill_h2 (h2_fill_write_buffer w h2s c1))
    (fill_write_buffer (h2_fill_write_buffer w h2s c1) c1) = false ->
  event_loop_info (h2_connection_handle_write w c) = MHD_EVENT_LOOP_INFO_READ.
Proof.
  intros Hh2 Hflush Hfill Hfin.
  unfold h2_connection_handle_write. rewrite Hh2, Hflush, Hfill.
  cbn [negb Z.eqb]. unfold finish_write. rewrite Hfin. reflexivity.
Qed.

(** ** The idle phase without input *)

Lemma size_add_small (a b : Z) :
  0 <= a + b < SIZE_MODULUS -> size_add a b = a + b.
Proof. intros H. unfold size_add, to_size. apply Z.mod_small. exact H. Qed.

Lemma size_sub_small (a b : Z) :
  0 <= a - b < SIZE_MODULUS -> size_sub a b = a - b.
Proof. intros H. unfold size_sub, to_size. apply Z.mod_small. exact H. Qed.

Lemma SIZE_MODULUS_value : SIZE_MODULUS = 18446744073709551616.
Proof. reflexivity. Qed.

Lemma buffer_slice_nothing (buffer : option (list Z)) (offset : Z) :
  buffer_slice buffer offset 0 = [].
Proof. destruct buffer; reflexivity. Qed.

(** A run against the claim as first written: an open connection without
    available bytes and with read interest comes out of the idle phase with
    write interest, so the phase is not a no-op. *)
Lemma idle_no_input_counterexample :
  state (sample_connection 20 0) <> MHD_CONNECTION_CLOSED
  /\ read_buffer_start_offset (sample_connection 20 0)
     = read_buffer_offset (sample_connection 20 0)
  /\ event_loop_info (sample_connection 20 0) = MHD_EVENT_LOOP_INFO_READ
  /\ event_loop_info
       (fst (h2_connection_handle_idle (decoder_answers 0)
               (sample_connection 20 0)))
     = MHD_EVENT_LOOP_INFO_WRITE
  /\ fst (h2_connection_handle_idle (decoder_answers 0)
            (sample_connection 20 0))
     <> sample_connection 20 0.
Proof.
  split; [discriminate |]. split; [reflexivity |]. split; [reflexivity |].
  split; [reflexivity |].
  intros H. apply (f_equal event_loop_info) in H. discriminate H.
Qed.

(** The connection the idle phase leaves when there is nothing to decode and
    the decoder reports no error. *)
Lemma idle_empty_result (w : Collaborators) (c : MHD_Connection)
    (h2s h2s' : h2_session_t) :
  h2 c = Some h2s ->
  state c <> MHD_CONNECTION_CLOSED ->
  read_buffer_start_offset c = read_buffer_offset c ->
  0 <= read_buffer_offset c < SIZE_MODULUS ->
  nghttp2_session_mem_recv w h2s [] 0 = (0, h2s') ->
  h2_connection_handle_idle w c
  = (set_event_loop_info MHD_EVENT_LOOP_INFO_WRITE
       (set_read_buffer_start_offset 0
          (set_read_buffer_offset 0
             (MHD_update_last_activity_ w
                (set_h2 (Some h2s') (set_in_idle true c))))),
     MHD_YES).
Proof.
  intros Hh2 Hstate Hempty Hrange Hrecv.
  unfold h2_connection_handle_idle.
  destruct c. cbn in *. subst.
  rewrite bool_decide_eq_false_2 by exact Hstate.
  rewrite size_sub_small by lia.
  rewrite Z.sub_diag. change (to_size (to_ssize 0)) with 0.
  rewrite buffer_slice_nothing, Hrecv.
  cbn. rewrite size_add_small by lia. rewrite Z.add_0_r, Z.eqb_refl.
  cbn. destruct (negb _); reflexivity.
Qed.

(** C9, amended. On an open connection with a session and without available
    bytes, when the decoder consumes nothing and reports no error, the idle
    phase returns [MHD_YES] and closes nothing: lifecycle state, buffers,
    capacities, write offsets and the record of calls are as they were.  It
    is not a no-op: both read offsets are reset to zero, the readiness
    interest becomes "write", the last-activity timestamp is refreshed and
    the session is as the decoder leaves it.  Repeating the invocation
    changes nothing more than the timestamp and the session. *)
Theorem idle_no_input (w w2 : Collaborators) (c : MHD_Connection)
    (h2s h2s' h2s'' : h2_session_t) :
  h2 c = Some h2s ->
  state c <> MHD_CONNECTION_CLOSED ->
  read_buffer_start_offset c = read_buffer_offset c ->
  0 <= read_buffer_offset c < SIZE_MODULUS ->
  nghttp2_session_mem_recv w h2s [] 0 = (0, h2s') ->
  nghttp2_session_mem_recv w2 h2s' [] 0 = (0, h2s'') ->
  let c1 := fst (h2_connection_handle_idle w c) in
  (snd (h2_connection_handle_idle w c) = MHD_YES
   /\ state c1 = state c
   /\ calls c1 = calls c
   /\ (read_buffer c1 = read_buffer c
       /\ read_buffer_size c1 = read_buffer_size c)
   /\ (write_buffer c1 = write_buffer c
       /\ write_buffer_size c1 = write_buffer_size c
       /\ write_buffer_send_offset c1 = write_buffer_send_offset c
       /\ write_buffer_append_offset c1 = write_buffer_append_offset c))
  /\ (read_buffer_start_offset c1 = 0
      /\ read_buffer_offset c1 = 0
      /\ event_loop_info c1 = MHD_EVENT_LOOP_INFO_WRITE
      /\ last_activity c1 = MHD_monotonic_sec_counter w
      /\ h2 c1 = Some h2s')
  /\ (h2_connection_handle_idle w2 c1
      = (set_last_activity (MHD_monotonic_sec_counter w2)
           (set_h2 (Some h2s'') c1),
         MHD_YES)).
Proof.
  intros Hh2 Hstate Hempty Hrange Hrecv Hrecv2 c1.
  pose proof (idle_empty_result w c h2s h2s' Hh2 Hstate Hempty Hrange Hrecv)
    as Hrun.
  assert (Hc1 : c1 = set_event_loop_info MHD_EVENT_LOOP_INFO_WRITE
                       (set_read_buffer_start_offset 0
                          (set_read_buffer_offset 0
                             (MHD_update_last_activity_ w
                                (set_h2 (Some h2s') (set_in_idle true c)))))).
  { unfold c1. rewrite Hrun. reflexivity. }
  rewrite Hrun. cbn [snd].
  split; [| split].
  - rewrite Hc1. cbn. tauto.
  - rewrite Hc1. cbn. tauto.
  - rewrite (idle_empty_result w2 c1 h2s' h2s'').
    + rewrite Hc1. reflexivity.
    + rewrite Hc1. reflexivity.
    + rewrite Hc1. exact Hstate.
    + rewrite Hc1. reflexivity.
    + rewrite Hc1. cbn. rewrite SIZE_MODULUS_value. lia.
    + exact Hrecv2.
Qed.

Lemma idle_no_input_witness :
  h2_connection_handle_idle (decoder_answers 0)
    (fst (h2_connection_handle_idle (decoder_answers 0)
            (sample_connection 20 0)))
  = (set_last_activity 100
       (set_h2 (Some sample_session)
          (fst (h2_connection_handle_idle (decoder_answers 0)
                  (sample_connection 20 0)))),
     MHD_YES).
Proof.
  apply (idle_no_input (decoder_answers 0) (decoder_answers 0)
           (sample_connection 20 0) sample_session sample_session
           sample_session eq_refl).
  - discriminate.
  - reflexivity.
  - vm_compute. split; [intros H; discriminate H | reflexivity].
  - reflexivity.
  - reflexivity.
Defined.

(** ** The buffer invariant along a run *)

Ltac size_lia := rewrite ?SIZE_MODULUS_value in *; lia.

Lemma settled_of_invariant (c : MHD_Connection) :
  capacities_representable c -> buffer_invariant c -> settled c.
Proof.
  intros Hcap Hinv. unfold settled. unfold buffer_invariant in *. tauto.
Qed.

Lemma settled_offsets_in_order (c : MHD_Connection) :
  settled c -> offsets_in_order c.
Proof.
  intros (_ & Hr & Hw & Hcases). unfold offsets_in_order.
  split; [exact Hr |]. split; [exact Hw |].
  intros Hopen. destruct Hcases as [Hinv | [Hclosed _]];
    [exact Hinv | contradiction].
Qed.

Lemma close_settled (c : MHD_Connection)
    (code : MHD_RequestTerminationCode) :
  read_offsets_ordered c -> write_offsets_ordered c ->
  settled (MHD_connection_close_ c code).
Proof.
  intros Hr Hw.
  unfold settled, capacities_representable, read_offsets_ordered,
    write_offsets_ordered in *.
  cbn. rewrite SIZE_MODULUS_value. repeat split; try lia. right. tauto.
Qed.

Lemma close_error_settled (c : MHD_Connection) (emsg : string) :
  read_offsets_ordered c -> write_offsets_ordered c ->
  settled (connection_close_error c emsg).
Proof.
  intros Hr Hw. unfold connection_close_error. apply close_settled; assumption.
Qed.

Lemma size_sub_nonneg (a b : Z) : 0 <= size_sub a b.
Proof.
  unfold size_sub, to_size. apply Z.mod_pos_bound. reflexivity.
Qed.

Lemma cleanup_settled (c : MHD_Connection) :
  settled c -> settled (set_in_idle false (cleanup_connection (set_in_idle true c))).
Proof.
  unfold settled, capacities_representable, buffer_invariant,
    read_offsets_ordered, write_offsets_ordered.
  cbn. tauto.
Qed.

Lemma finish_write_settled (w : Collaborators) (h2s : h2_session_t)
    (c : MHD_Connection) :
  capacities_representable c -> buffer_invariant c ->
  settled (finish_write w h2s c).
Proof.
  intros Hcap Hinv. unfold finish_write.
  destruct (session_finished h2s c).
  - unfold buffer_invariant in Hinv. apply close_settled; tauto.
  - apply settled_of_invariant; [exact Hcap | exact Hinv].
Qed.

(** The phases preserve [settled] when the collaborators of the invocation
    honour their contracts. *)
Section Phases.

Variable w : Collaborators.
Hypothesis Hw : honest w.

Lemma try_grow_read_buffer_invariant (c : MHD_Connection) :
  capacities_representable c -> buffer_invariant c ->
  capacities_representable (try_grow_read_buffer w c)
  /\ buffer_invariant (try_grow_read_buffer w c).
Proof.
  intros Hcap Hinv. unfold try_grow_read_buffer.
  destruct (MHD_pool_reallocate w c) as [[buf new_size]|] eqn:Hgrow;
    [| tauto].
  pose proof (grow_within w Hw c buf new_size Hgrow) as Hnew.
  unfold capacities_representable, buffer_invariant, read_offsets_ordered,
    write_offsets_ordered in *.
  cbn. lia.
Qed.

Lemma read_from_socket_settled (c : MHD_Connection) :
  capacities_representable c -> buffer_invariant c ->
  settled (read_from_socket w c).
Proof.
  intros Hcap Hinv. unfold read_from_socket.
  destruct (h2 c); [| apply settled_of_invariant; assumption].
  pose proof (recv_within w Hw c (read_buffer_offset c)
                (size_sub (read_buffer_size c) (read_buffer_offset c))
                (size_sub_nonneg _ _))
    as Hrecv.
  destruct (recv_cls w c _ _) as [bytes_read data]. cbn [fst] in Hrecv.
  assert (Hr : read_offsets_ordered c) by (unfold buffer_invariant in Hinv; tauto).
  assert (Hwo : write_offsets_ordered c) by (unfold buffer_invariant in Hinv; tauto).
  destruct (Z.ltb_spec bytes_read 0).
  - destruct (MHD_ERR_AGAIN_ =? bytes_read);
      [apply settled_of_invariant; assumption |].
    destruct (MHD_ERR_CONNRESET_ =? bytes_read);
      apply close_error_settled; assumption.
  - destruct (Z.eqb_spec 0 bytes_read).
    + apply close_settled; assumption.
    + unfold capacities_representable, buffer_invariant, read_offsets_ordered,
        write_offsets_ordered in *.
      rewrite size_sub_small in Hrecv by size_lia.
      apply settled_of_invariant;
        unfold capacities_representable, buffer_invariant,
          read_offsets_ordered, write_offsets_ordered;
        cbn; rewrite ?size_add_small by size_lia; lia.
Qed.

Lemma read_settled (c : MHD_Connection) :
  settled c -> settled (h2_connection_handle_read w c).
Proof.
  intros Hc. unfold h2_connection_handle_read.
  destruct (bool_decide_reflect (MHD_CONNECTION_CLOSED = state c)) as [Hcl|Hop];
    cbn [orb]; [exact Hc |].
  destruct (suspended c); [exact Hc |].
  destruct Hc as (Hcap & _ & _ & [Hinv | [Hcl _]]); [| congruence].
  destruct (try_grow_read_buffer_invariant c Hcap Hinv) as [Hcap' Hinv'].
  destruct (read_buffer_size c
              <? size_add (read_buffer_offset c) (pool_increment c)).
  - destruct (read_buffer_size (try_grow_read_buffer w c)
                =? read_buffer_offset (try_grow_read_buffer w c)).
    + apply settled_of_invariant; assumption.
    + apply read_from_socket_settled; assumption.
  - destruct (read_buffer_size c =? read_buffer_offset c).
    + apply settled_of_invariant; assumption.
    + apply read_from_socket_settled; assumption.
Qed.

Lemma flush_write_buffer_settled (c : MHD_Connection) :
  capacities_representable c -> buffer_invariant c ->
  match flush_write_buffer w c with
  | inl c' => settled c'
  | inr c' => capacities_representable c' /\ buffer_invariant c'
  end.
Proof.
  intros Hcap Hinv. unfold flush_write_buffer.
  assert (Hr : read_offsets_ordered c) by (unfold buffer_invariant in Hinv; tauto).
  assert (Hwo : write_offsets_ordered c) by (unfold buffer_invariant in Hinv; tauto).
  destruct (0 <? size_sub (write_buffer_append_offset c)
                          (write_buffer_send_offset c)); [| tauto].
  pose proof (send_within w Hw c
                (buffer_slice (write_buffer c) (write_buffer_send_offset c)
                   (size_sub (write_buffer_append_offset c)
                             (write_buffer_send_offset c)))
                (size_sub (write_buffer_append_offset c)
                          (write_buffer_send_offset c))
                (size_sub_nonneg _ _)) as Hsend.
  destruct (Z.ltb_spec (send_cls w c
                (buffer_slice (write_buffer c) (write_buffer_send_offset c)
                   (size_sub (write_buffer_append_offset c)
                             (write_buffer_send_offset c)))
                (size_sub (write_buffer_append_offset c)
                          (write_buffer_send_offset c))) 0) as [Hneg|Hpos].
  - destruct (MHD_ERR_AGAIN_ =? _).
    + apply settled_of_invariant; assumption.
    + apply close_settled; assumption.
  - set (ret := send_cls w c _ _) in *.
    unfold capacities_representable, buffer_invariant, read_offsets_ordered,
      write_offsets_ordered in *.
    rewrite size_sub_small in Hsend by size_lia.
    cbn. rewrite size_add_small by size_lia.
    destruct (_ =? 0); cbn; lia.
Qed.

Lemma fill_write_buffer_invariant (h2s : h2_session_t) (c : MHD_Connection) :
  capacities_representable c -> buffer_invariant c ->
  capacities_representable (fill_write_buffer (h2_fill_write_buffer w h2s c) c)
  /\ buffer_invariant (fill_write_buffer (h2_fill_write_buffer w h2s c) c).
Proof.
  intros Hcap Hinv.
  unfold capacities_representable, buffer_invariant, read_offsets_ordered,
    write_offsets_ordered in *.
  pose proof (fill_within w Hw h2s c) as Hfill.
  unfold write_offsets_ordered in Hfill.
  cbn. lia.
Qed.

Lemma write_settled (c : MHD_Connection) :
  settled c -> settled (h2_connection_handle_write w c).
Proof.
  intros Hc. unfold h2_connection_handle_write.
  destruct (h2 c) as [h2s|] eqn:Hh2; [| exact Hc].
  destruct Hc as (Hcap & _ & _ & [Hinv | [_ Hnone]]); [| congruence].
  pose proof (flush_write_buffer_settled c Hcap Hinv) as Hflush.
  destruct (flush_write_buffer w c) as [c'|c1]; [exact Hflush |].
  destruct Hflush as [Hcap1 Hinv1].
  destruct (fill_write_buffer_invariant h2s c1 Hcap1 Hinv1)
    as [Hcap2 Hinv2].
  destruct (negb _).
  - unfold buffer_invariant in Hinv2. apply close_settled; tauto.
  - apply finish_write_settled; assumption.
Qed.

Lemma idle_settled (c : MHD_Connection) :
  settled c -> settled (fst (h2_connection_handle_idle w c)).
Proof.
  intros Hc. unfold h2_connection_handle_idle.
  change (h2 (set_in_idle true c)) with (h2 c).
  destruct (h2 c) as [h2s|] eqn:Hh2; [| apply cleanup_settled; exact Hc].
  change (state (set_in_idle true c)) with (state c).
  destruct (bool_decide (state c = MHD_CONNECTION_CLOSED));
    [apply cleanup_settled; exact Hc |].
  destruct Hc as (Hcap & _ & _ & [Hinv | [_ Hnone]]); [| congruence].
  change (read_buffer_offset (set_in_idle true c)) with (read_buffer_offset c).
  change (read_buffer_start_offset (set_in_idle true c))
    with (read_buffer_start_offset c).
  change (read_buffer (set_in_idle true c)) with (read_buffer c).
  rewrite inlen_size_sub.
  set (bytes_read := size_sub (read_buffer_offset c)
                              (read_buffer_start_offset c)).
  pose proof (mem_recv_within w Hw h2s
                (buffer_slice (read_buffer c) (read_buffer_start_offset c)
                   bytes_read) bytes_read (size_sub_nonneg _ _)) as Hrecv.
  destruct (nghttp2_session_mem_recv w h2s _ bytes_read) as [rv h2s'].
  cbn [fst] in Hrecv.
  destruct (Z.ltb_spec rv 0) as [Hneg|Hpos].
  - cbn [fst]. unfold buffer_invariant in Hinv.
    apply close_settled; cbn; tauto.
  - cbn [fst].
    assert (Hlen : bytes_read
                   = read_buffer_offset c - read_buffer_start_offset c).
    { unfold bytes_read in *.
      unfold capacities_representable, buffer_invariant,
        read_offsets_ordered in *.
      apply size_sub_small; size_lia. }
    apply settled_of_invariant;
      unfold capacities_representable, buffer_invariant, read_offsets_ordered,
        write_offsets_ordered in *;
      cbn; rewrite size_add_small by size_lia;
      destruct (read_buffer_offset c =? read_buffer_start_offset c + rv);
      cbn; destruct (negb _); cbn; lia.
Qed.

Lemma run_phase_settled (p : phase) (c : MHD_Connection) :
  settled c -> settled (run_phase w p c).
Proof.
  intros Hc. destruct p; cbn [run_phase].
  - apply read_settled; assumption.
  - apply idle_settled; assumption.
  - apply write_settled; assumption.
Qed.

End Phases.

Lemma states_after_settled (steps : list (phase * Collaborators)) :
  forall c : MHD_Connection,
    Forall (fun step => honest (snd step)) steps ->
    settled c ->
    Forall settled (states_after steps c).
Proof.
  induction steps as [|[p w] steps IH]; intros c Hsteps Hc; cbn [states_after].
  - constructor.
  - apply Forall_cons_1 in Hsteps as [Hw Hsteps]. cbn [snd] in Hw.
    pose proof (run_phase_settled w Hw p c Hc) as Hc'.
    constructor; [exact Hc' |]. apply IH; assumption.
Qed.

Lemma sample_collaborators_honest (recv_result send_result decoded : Z -> Z)
    (encoded : Z) :
  (forall len, 0 <= len -> recv_result len <= len) ->
  (forall len, 0 <= len -> send_result len <= len) ->
  (forall len, 0 <= len -> decoded len <= len) ->
  0 <= encoded ->
  honest (sample_collaborators recv_result send_result decoded encoded).
Proof.
  intros Hrecv Hsend Hdec Henc. constructor; cbn.
  - intros _ _ len. apply Hrecv.
  - intros _ _ len. apply Hsend.
  - intros c buf new_size H. discriminate H.
  - intros _ _ len. apply Hdec.
  - intros _ c Hord Hcap. unfold write_offsets_ordered in Hord. lia.
Qed.

Lemma at_most_within (n len : Z) : at_most n len <= len.
Proof. unfold at_most. lia. Qed.

Lemma everything_within (len : Z) : everything len <= len.
Proof. unfold everything. lia. Qed.

Lemma always_within (n len : Z) : n <= 0 -> 0 <= len -> always n len <= len.
Proof. unfold always. lia. Qed.

Create HintDb within.
#[local] Hint Resolve at_most_within everything_within Z.le_refl : within.
#[local] Hint Extern 1 (_ <= _) => lia : within.
#[local] Hint Extern 1 (always _ _ <= _) =>
  apply always_within; [discriminate | assumption] : within.



Example run_offsets :
  map (fun c => (read_buffer_start_offset c, read_buffer_offset c,
                 read_buffer_size c, state c))
    (states_after
       [(read_phase, peer_sends 5); (idle_phase, decoder_answers 3);
        (write_phase, session_encodes 4); (read_phase, peer_sends 0)]
       (sample_connection 20 10))
  = [(0, 15, 20, MHD_CONNECTION_ACTIVE); (3, 15, 20, MHD_CONNECTION_ACTIVE);
     (3, 15, 20, MHD_CONNECTION_ACTIVE); (3, 15, 0, MHD_CONNECTION_CLOSED)].
Proof. reflexivity. Qed.

(** ** The byte-order helpers and the rotation *)

Lemma testbit_ones_total (k m : Z) :
  0 <= k -> Z.testbit (Z.ones k) m = (0 <=? m) && (m <? k).
Proof. intros Hk. apply Z.testbit_ones. exact Hk. Qed.

Lemma testbit_shiftr_total (a k m : Z) :
  0 <= k -> Z.testbit (Z.shiftr a k) m = (0 <=? m) && Z.testbit a (m + k).
Proof.
  intros Hk. destruct (Z.leb_spec 0 m).
  - rewrite Z.shiftr_spec by lia. reflexivity.
  - rewrite Z.testbit_neg_r by lia. reflexivity.
Qed.

Lemma testbit_shiftl_total (a k m : Z) :
  0 <= k -> Z.testbit (Z.shiftl a k) m = (0 <=? m) && Z.testbit a (m - k).
Proof.
  intros Hk. destruct (Z.leb_spec 0 m).
  - rewrite Z.shiftl_spec by lia. reflexivity.
  - rewrite Z.testbit_neg_r by lia. reflexivity.
Qed.

Ltac bits_expand :=
  change 255 with (Z.ones 8) in *;
  change 4294967295 with (Z.ones 32) in *;
  change 18446744073709551615 with (Z.ones 64) in *;
  repeat first
    [ rewrite Z.lor_spec
    | rewrite Z.land_spec
    | rewrite testbit_shiftr_total by lia
    | rewrite testbit_shiftl_total by lia
    | rewrite testbit_ones_total by lia ].

Ltac bits_split :=
  repeat match goal with
  | |- context [?a <? ?b] => destruct (Z.ltb_spec a b); try lia
  | |- context [?a <=? ?b] => destruct (Z.leb_spec a b); try lia
  end.

Ltac bits_solve :=
  bits_expand; bits_split; cbn [andb orb];
  repeat match goal with
         | |- context [Z.testbit ?x ?e] =>
             rewrite (Z.testbit_neg_r x e) by lia
         end;
  rewrite ?andb_true_r, ?andb_false_r, ?orb_false_r, ?orb_true_r;
  cbn [andb orb];
  try reflexivity;
  try (f_equal; lia);
  try (repeat match goal with
              | |- context [Z.testbit ?x ?e] => destruct (Z.testbit x e)
              end; reflexivity).

Lemma splice_length (mem : list Z) (addr : nat) (bytes : list Z) :
  (addr + length bytes <= length mem)%nat ->
  length (splice mem addr bytes) = length mem.
Proof.
  intros H. unfold splice.
  rewrite !length_app, length_take, length_drop. lia.
Qed.

Lemma splice_self (mem : list Z) (addr n : nat) :
  splice mem addr (take n (drop addr mem)) = mem.
Proof.
  unfold splice. rewrite length_take, length_drop.
  rewrite app_assoc, take_take_drop.
  destruct (decide (n <= length mem - addr)%nat).
  - replace (addr + n `min` (length mem - addr))%nat with (addr + n)%nat by lia.
    apply take_drop.
  - replace (addr + n `min` (length mem - addr))%nat
      with (addr + (length mem - addr))%nat by lia.
    rewrite (take_ge mem (addr + n)) by lia.
    rewrite drop_ge by lia. apply app_nil_r.
Qed.

Lemma store_uint8_splice (mem : list Z) (addr i : nat) (bytes : list Z) (b : Z) :
  (addr + length bytes <= length mem)%nat ->
  (i < length bytes)%nat ->
  store_uint8 (splice mem addr bytes) addr i b
  = Some (splice mem addr (<[i := uint8_t b]> bytes)).
Proof.
  intros Hlen Hi. unfold store_uint8.
  rewrite decide_True by (rewrite splice_length; lia).
  f_equal. unfold splice. rewrite length_insert.
  replace addr with (length (take addr mem)) at 1
    by (rewrite length_take; lia).
  rewrite insert_app_r. f_equal.
  rewrite insert_app_l by exact Hi. reflexivity.
Qed.

Lemma splice_app (mem : list Z) (addr : nat) (xs ys : list Z) :
  (addr + length xs + length ys <= length mem)%nat ->
  splice (splice mem addr xs) (addr + length xs) ys = splice mem addr (xs ++ ys).
Proof.
  intros Hlen. unfold splice.
  assert (Ht : length (take addr mem) = addr) by (rewrite length_take; lia).
  assert (H1 : take (addr + length xs)
                 (take addr mem ++ xs ++ drop (addr + length xs) mem)
               = take addr mem ++ xs).
  { rewrite app_assoc. apply take_app_length'. rewrite length_app. lia. }
  assert (H2 : drop (addr + length xs + length ys)
                 (take addr mem ++ xs ++ drop (addr + length xs) mem)
               = drop (addr + length (xs ++ ys)) mem).
  { rewrite app_assoc, drop_app_ge by (rewrite length_app; lia).
    rewrite length_app, Ht, drop_drop. f_equal. rewrite length_app. lia. }
  rewrite H1, H2, <- !app_assoc. reflexivity.
Qed.

Ltac splice_stores :=
  repeat (rewrite store_uint8_splice by (cbn [length]; lia);
          cbn [mbind option_bind list_insert insert]).

Lemma put_32bit_be_on_splice (host : byte_order) (mem : list Z) (addr : nat)
    (cells : list Z) (v : Z) :
  length cells = 4%nat -> (addr + 4 <= length mem)%nat ->
  _MHD_PUT_32BIT_BE host (splice mem addr cells) addr v
  = Some (splice mem addr (be_bytes32 v)).
Proof.
  intros Hc Hlen.
  destruct cells as [|x0 [|x1 [|x2 [|x3 [|]]]]]; try discriminate Hc.
  unfold _MHD_PUT_32BIT_BE, store_uint32_native, native_layout, be_bytes32.
  destruct (decide (host = _MHD_BIG_ENDIAN)) as [->|_]; splice_stores;
    reflexivity.
Qed.

Lemma put_32bit_le_on_splice (host : byte_order) (mem : list Z) (addr : nat)
    (cells : list Z) (v : Z) :
  length cells = 4%nat -> (addr + 4 <= length mem)%nat ->
  _MHD_PUT_32BIT_LE host (splice mem addr cells) addr v
  = Some (splice mem addr (rev (be_bytes32 v))).
Proof.
  intros Hc Hlen.
  destruct cells as [|x0 [|x1 [|x2 [|x3 [|]]]]]; try discriminate Hc.
  unfold _MHD_PUT_32BIT_LE, store_uint32_native, native_layout, be_bytes32.
  destruct (decide (host = _MHD_LITTLE_ENDIAN)) as [->|_]; splice_stores;
    reflexivity.
Qed.

Lemma put_64bit_be_on_splice (host : byte_order) (mem : list Z) (addr : nat)
    (cells : list Z) (v : Z) :
  length cells = 8%nat -> (addr + 8 <= length mem)%nat ->
  _MHD_PUT_64BIT_BE host (splice mem addr cells) addr v
  = Some (splice mem addr (be_bytes64 v)).
Proof.
  intros Hc Hlen.
  destruct cells as [|x0 [|x1 [|x2 [|x3 [|x4 [|x5 [|x6 [|x7 [|]]]]]]]]];
    try discriminate Hc.
  unfold _MHD_PUT_64BIT_BE, store_uint64_native, native_layout64, be_bytes64.
  destruct (decide (host = _MHD_BIG_ENDIAN)) as [->|_]; splice_stores;
    reflexivity.
Qed.

Lemma put_64bit_le_on_splice (host : byte_order) (mem : list Z) (addr : nat)
    (cells : list Z) (v : Z) :
  length cells = 8%nat -> (addr + 8 <= length mem)%nat ->
  _MHD_PUT_64BIT_LE host (splice mem addr cells) addr v
  = Some (splice mem addr (rev (be_bytes64 v))).
Proof.
  intros Hc Hlen.
  destruct cells as [|x0 [|x1 [|x2 [|x3 [|x4 [|x5 [|x6 [|x7 [|]]]]]]]]];
    try discriminate Hc.
  unfold _MHD_PUT_64BIT_LE, store_uint64_native, native_layout64, be_bytes64.
  destruct (decide (host = _MHD_LITTLE_ENDIAN)) as [->|_]; splice_stores;
    reflexivity.
Qed.

Lemma cells_length (mem : list Z) (addr n : nat) :
  (addr + n <= length mem)%nat -> length (take n (drop addr mem)) = n.
Proof. intros H. rewrite length_take, length_drop. lia. Qed.

Lemma be_bytes64_halves (v : Z) :
  be_bytes64 v = be_bytes32 (Z.shiftr (uint64_t v) 32) ++ be_bytes32 v.
Proof.
  unfold be_bytes64, be_bytes32, uint8_t, uint32_t, uint64_t. cbn [app].
  repeat (f_equal; [apply Z.bits_inj'; intros n Hn; bits_solve |]).
  f_equal. apply Z.bits_inj'; intros n Hn; bits_solve.
Qed.

Lemma uint8_t_byte (b : Z) : 0 <= b < 256 -> uint8_t b = b.
Proof.
  intros Hb. unfold uint8_t. change 255 with (Z.ones 8).
  rewrite Z.land_ones by lia. apply Z.mod_small. lia.
Qed.

Lemma be_bytes32_be32 (x0 x1 x2 x3 : Z) :
  be_bytes32 (be32 (uint8_t x0) (uint8_t x1) (uint8_t x2) (uint8_t x3))
  = [uint8_t x0; uint8_t x1; uint8_t x2; uint8_t x3].
Proof.
  unfold be_bytes32, be32, uint8_t, uint32_t.
  repeat (f_equal; [apply Z.bits_inj'; intros n Hn; bits_solve |]).
  f_equal. apply Z.bits_inj'; intros n Hn; bits_solve.
Qed.

Lemma uint32_t_be32 (x0 x1 x2 x3 : Z) :
  uint32_t (be32 (uint8_t x0) (uint8_t x1) (uint8_t x2) (uint8_t x3))
  = be32 (uint8_t x0) (uint8_t x1) (uint8_t x2) (uint8_t x3).
Proof.
  unfold be32, uint8_t, uint32_t.
  apply Z.bits_inj'; intros n Hn; bits_solve.
Qed.

Lemma lor_disjoint (x y : Z) : Z.land x y = 0 -> Z.lor x y = x + y.
Proof. intros H. pose proof (Z.add_lor_land x y) as Hs. rewrite H in Hs. lia. Qed.

Lemma be32_sum (x0 x1 x2 x3 : Z) :
  be32 (uint8_t x0) (uint8_t x1) (uint8_t x2) (uint8_t x3)
  = uint8_t x0 * 16777216 + uint8_t x1 * 65536 + uint8_t x2 * 256 + uint8_t x3.
Proof.
  unfold be32.
  rewrite (lor_disjoint _ (uint8_t x3)).
  2:{ unfold uint8_t. apply Z.bits_inj'; intros n Hn. rewrite Z.bits_0. bits_solve. }
  rewrite (lor_disjoint _ (Z.shiftl (uint8_t x2) 8)).
  2:{ unfold uint8_t. apply Z.bits_inj'; intros n Hn. rewrite Z.bits_0. bits_solve. }
  rewrite (lor_disjoint (Z.shiftl (uint8_t x0) 24)).
  2:{ unfold uint8_t. apply Z.bits_inj'; intros n Hn. rewrite Z.bits_0. bits_solve. }
  rewrite !Z.shiftl_mul_pow2 by lia. reflexivity.
Qed.

Lemma uint8_shiftr_uint32 (v k : Z) :
  0 <= k <= 24 -> uint8_t (Z.shiftr (uint32_t v) k) = (v / 2 ^ k) mod 256.
Proof.
  intros Hk. rewrite <- Z.shiftr_div_pow2 by lia.
  change 256 with (2 ^ 8). rewrite <- Z.land_ones by lia.
  unfold uint8_t, uint32_t. apply Z.bits_inj'; intros n Hn. bits_solve.
Qed.

Lemma uint8_shiftr_uint64 (v k : Z) :
  0 <= k <= 56 -> uint8_t (Z.shiftr (uint64_t v) k) = (v / 2 ^ k) mod 256.
Proof.
  intros Hk. rewrite <- Z.shiftr_div_pow2 by lia.
  change 256 with (2 ^ 8). rewrite <- Z.land_ones by lia.
  unfold uint8_t, uint64_t. apply Z.bits_inj'; intros n Hn. bits_solve.
Qed.

Lemma be_bytes32_arith (v : Z) : be_bytes32 v = be_bytes 4 v.
Proof.
  unfold be_bytes32. cbn [be_bytes].
  replace (uint8_t (uint32_t v)) with (uint8_t (Z.shiftr (uint32_t v) 0))
    by (rewrite Z.shiftr_0_r; reflexivity).
  rewrite !uint8_shiftr_uint32 by lia. reflexivity.
Qed.

Lemma be_bytes64_arith (v : Z) : be_bytes64 v = be_bytes 8 v.
Proof.
  unfold be_bytes64. cbn [be_bytes].
  replace (uint8_t (uint64_t v)) with (uint8_t (Z.shiftr (uint64_t v) 0))
    by (rewrite Z.shiftr_0_r; reflexivity).
  rewrite !uint8_shiftr_uint64 by lia. reflexivity.
Qed.

Lemma be_bytes_8_halves (v : Z) :
  be_bytes 8 v = be_bytes 4 (v / 2 ^ 32) ++ be_bytes 4 v.
Proof.
  rewrite <- be_bytes64_arith, <- !be_bytes32_arith, be_bytes64_halves.
  f_equal. unfold be_bytes32.
  rewrite <- Z.shiftr_div_pow2 by lia.
  unfold uint8_t, uint32_t, uint64_t.
  repeat (f_equal; [apply Z.bits_inj'; intros n Hn; bits_solve |]).
  f_equal. apply Z.bits_inj'; intros n Hn; bits_solve.
Qed.

Lemma get_32bit_be_cells (host : byte_order) (mem : list Z) (addr : nat)
    (b0 b1 b2 b3 : Z) :
  take 4 (drop addr mem) = [b0; b1; b2; b3] ->
  0 <= b0 < 256 -> 0 <= b1 < 256 -> 0 <= b2 < 256 -> 0 <= b3 < 256 ->
  _MHD_GET_32BIT_BE host mem addr
  = Some (be32 (uint8_t b0) (uint8_t b1) (uint8_t b2) (uint8_t b3)).
Proof.
  intros Hcells H0 H1 H2 H3.
  assert (Hl : forall i b, [b0; b1; b2; b3] !! i = Some b ->
                           mem !! (addr + i)%nat = Some b).
  { intros i b Hi. rewrite <- Hcells in Hi.
    apply lookup_take_Some in Hi as [Hi _]. rewrite lookup_drop in Hi.
    exact Hi. }
  unfold _MHD_GET_32BIT_BE, load_uint32_native, load_uint8.
  rewrite (Hl 0%nat b0 eq_refl), (Hl 1%nat b1 eq_refl),
    (Hl 2%nat b2 eq_refl), (Hl 3%nat b3 eq_refl).
  rewrite <- (uint8_t_byte b0 H0), <- (uint8_t_byte b1 H1),
    <- (uint8_t_byte b2 H2), <- (uint8_t_byte b3 H3).
  destruct (decide (host = _MHD_BIG_ENDIAN)) as [->|_];
    cbn [mbind option_bind]; f_equal.
  - rewrite !uint8_t_byte by assumption. reflexivity.
  - rewrite !uint32_t_uint8_t.
    fold (be32 (uint8_t b0) (uint8_t b1) (uint8_t b2) (uint8_t b3)).
    rewrite uint32_t_be32. rewrite !uint8_t_byte by assumption. reflexivity.
Qed.

Lemma put_32bit_be_splice (host : byte_order) (mem : list Z) (addr : nat)
    (v : Z) :
  (addr + 4 <= length mem)%nat ->
  _MHD_PUT_32BIT_BE host mem addr v = Some (splice mem addr (be_bytes 4 v)).
Proof.
  intros Hlen. rewrite <- be_bytes32_arith.
  rewrite <- (splice_self mem addr 4) at 1.
  apply put_32bit_be_on_splice; [apply cells_length |]; exact Hlen.
Qed.

Lemma put_32bit_le_splice (host : byte_order) (mem : list Z) (addr : nat)
    (v : Z) :
  (addr + 4 <= length mem)%nat ->
  _MHD_PUT_32BIT_LE host mem addr v
  = Some (splice mem addr (rev (be_bytes 4 v))).
Proof.
  intros Hlen. rewrite <- be_bytes32_arith.
  rewrite <- (splice_self mem addr 4) at 1.
  apply put_32bit_le_on_splice; [apply cells_length |]; exact Hlen.
Qed.

Lemma put_64bit_be_splice (host : byte_order) (mem : list Z) (addr : nat)
    (v : Z) :
  (addr + 8 <= length mem)%nat ->
  _MHD_PUT_64BIT_BE host mem addr v = Some (splice mem addr (be_bytes 8 v)).
Proof.
  intros Hlen. rewrite <- be_bytes64_arith.
  rewrite <- (splice_self mem addr 8) at 1.
  apply put_64bit_be_on_splice; [apply cells_length |]; exact Hlen.
Qed.

Lemma put_64bit_le_splice (host : byte_order) (mem : list Z) (addr : nat)
    (v : Z) :
  (addr + 8 <= length mem)%nat ->
  _MHD_PUT_64BIT_LE host mem addr v
  = Some (splice mem addr (rev (be_bytes 8 v))).
Proof.
  intros Hlen. rewrite <- be_bytes64_arith.
  rewrite <- (splice_self mem addr 8) at 1.
  apply put_64bit_le_on_splice; [apply cells_length |]; exact Hlen.
Qed.

Lemma be_bytes_length (n : nat) (v : Z) : length (be_bytes n v) = n.
Proof. induction n as [|n IH]; cbn [be_bytes length]; congruence. Qed.

(** X1. On a host of any byte order [_MHD_PUT_32BIT_BE] stores the four
    bytes of the value, most significant first, at [addr] to [addr + 3] and
    leaves every other byte of the buffer as it was. *)
Theorem put_32bit_be_writes_big_endian (host : byte_order) (mem : list Z)
    (addr : nat) (v : Z) :
  (addr + 4 <= length mem)%nat ->
  _MHD_PUT_32BIT_BE host mem addr v
  = Some (take addr mem
            ++ [(v / 2 ^ 24) mod 256; (v / 2 ^ 16) mod 256;
                (v / 2 ^ 8) mod 256; v mod 256]
            ++ drop (addr + 4) mem).
Proof.
  intros Hlen. rewrite put_32bit_be_splice by exact Hlen.
  unfold splice. cbn [be_bytes length Z.of_nat Z.mul Pos.of_succ_nat Pos.succ Pos.mul].
  rewrite Z.div_1_r. reflexivity.
Qed.

Lemma put_32bit_be_writes_big_endian_witness :
  _MHD_PUT_32BIT_BE _MHD_PDP_ENDIAN [1; 2; 3; 4; 5; 6] 1 305419896
  = Some [1; 18; 52; 86; 120; 6].
Proof.
  rewrite (put_32bit_be_writes_big_endian _MHD_PDP_ENDIAN [1; 2; 3; 4; 5; 6]
             1 305419896) by (simpl; lia).
  reflexivity.
Defined.

Lemma be_bytes_4 (v : Z) :
  be_bytes 4 v
  = [(v / 2 ^ 24) mod 256; (v / 2 ^ 16) mod 256; (v / 2 ^ 8) mod 256;
     v mod 256].
Proof.
  cbn [be_bytes length Z.of_nat Z.mul Pos.of_succ_nat Pos.succ Pos.mul].
  rewrite Z.div_1_r. reflexivity.
Qed.

(** X4. On a host of any byte order [_MHD_PUT_32BIT_LE] stores the four
    bytes of the value, least significant first, at [addr] to [addr + 3] and
    leaves every other byte of the buffer as it was. *)
Theorem put_32bit_le_writes_little_endian (host : byte_order) (mem : list Z)
    (addr : nat) (v : Z) :
  (addr + 4 <= length mem)%nat ->
  _MHD_PUT_32BIT_LE host mem addr v
  = Some (take addr mem
            ++ [v mod 256; (v / 2 ^ 8) mod 256; (v / 2 ^ 16) mod 256;
                (v / 2 ^ 24) mod 256]
            ++ drop (addr + 4) mem).
Proof.
  intros Hlen. rewrite put_32bit_le_splice by exact Hlen.
  rewrite be_bytes_4. reflexivity.
Qed.

Lemma put_32bit_le_writes_little_endian_witness :
  _MHD_PUT_32BIT_LE _MHD_BIG_ENDIAN [1; 2; 3; 4; 5; 6] 1 305419896
  = Some [1; 120; 86; 52; 18; 6].
Proof.
  rewrite (put_32bit_le_writes_little_endian _MHD_BIG_ENDIAN
             [1; 2; 3; 4; 5; 6] 1 305419896) by (simpl; lia).
  reflexivity.
Defined.

Lemma cells_of_lookup (mem : list Z) (addr : nat) (b0 b1 b2 b3 : Z) :
  mem !! (addr + 0)%nat = Some b0 -> mem !! (addr + 1)%nat = Some b1 ->
  mem !! (addr + 2)%nat = Some b2 -> mem !! (addr + 3)%nat = Some b3 ->
  take 4 (drop addr mem) = [b0; b1; b2; b3].
Proof.
  intros H0 H1 H2 H3.
  apply list_eq. intros i.
  destruct (decide (i < 4)%nat) as [Hi|Hi].
  - rewrite lookup_take_lt by exact Hi. rewrite lookup_drop.
    destruct i as [|[|[|[|i]]]]; [assumption .. | lia].
  - rewrite lookup_take_ge by lia.
    destruct i as [|[|[|[|i]]]]; try lia. reflexivity.
Qed.

Lemma get_32bit_be_inv (host : byte_order) (mem : list Z) (addr : nat) (v : Z) :
  _MHD_GET_32BIT_BE host mem addr = Some v ->
  exists b0 b1 b2 b3, take 4 (drop addr mem) = [b0; b1; b2; b3].
Proof.
  unfold _MHD_GET_32BIT_BE, load_uint32_native, load_uint8.
  intros H.
  destruct (mem !! (addr + 0)%nat) as [b0|] eqn:H0;
    [| destruct (decide _); discriminate H].
  destruct (mem !! (addr + 1)%nat) as [b1|] eqn:H1;
    [| destruct (decide _); discriminate H].
  destruct (mem !! (addr + 2)%nat) as [b2|] eqn:H2;
    [| destruct (decide _); discriminate H].
  destruct (mem !! (addr + 3)%nat) as [b3|] eqn:H3;
    [| destruct (decide _); discriminate H].
  exists b0, b1, b2, b3. apply cells_of_lookup; assumption.
Qed.

(** X2. On a host of any byte order [_MHD_GET_32BIT_BE] reads the four bytes
    at [addr] as a big-endian number,
    [b0 * 2^24 + b1 * 2^16 + b2 * 2^8 + b3], which is a 32-bit value. *)
Theorem get_32bit_be_value (host : byte_order) (mem : list Z) (addr : nat)
    (b0 b1 b2 b3 : Z) :
  take 4 (drop addr mem) = [b0; b1; b2; b3] ->
  0 <= b0 < 256 -> 0 <= b1 < 256 -> 0 <= b2 < 256 -> 0 <= b3 < 256 ->
  _MHD_GET_32BIT_BE host mem addr
  = Some (b0 * 2 ^ 24 + b1 * 2 ^ 16 + b2 * 2 ^ 8 + b3)
  /\ 0 <= b0 * 2 ^ 24 + b1 * 2 ^ 16 + b2 * 2 ^ 8 + b3 < 2 ^ 32.
Proof.
  intros Hcells H0 H1 H2 H3.
  split; [| change (2 ^ 24) with 16777216; change (2 ^ 16) with 65536;
            change (2 ^ 8) with 256; change (2 ^ 32) with 4294967296; lia].
  rewrite (get_32bit_be_cells host mem addr b0 b1 b2 b3) by assumption.
  rewrite be32_sum, !uint8_t_byte by assumption. reflexivity.
Qed.

Lemma get_32bit_be_value_witness :
  _MHD_GET_32BIT_BE _MHD_LITTLE_ENDIAN [0; 18; 52; 86; 120; 0] 1
  = Some (18 * 2 ^ 24 + 52 * 2 ^ 16 + 86 * 2 ^ 8 + 120)
  /\ 0 <= 18 * 2 ^ 24 + 52 * 2 ^ 16 + 86 * 2 ^ 8 + 120 < 2 ^ 32.
Proof.
  apply (get_32bit_be_value _MHD_LITTLE_ENDIAN [0; 18; 52; 86; 120; 0] 1
           18 52 86 120); [reflexivity | lia ..].
Defined.

(** X3. Writing back with [_MHD_PUT_32BIT_BE] what [_MHD_GET_32BIT_BE] has
    read from a buffer of bytes leaves the buffer as it is. *)
Theorem get_put_32bit_be (host : byte_order) (mem : list Z) (addr : nat)
    (v : Z) :
  Forall (fun b => 0 <= b < 256) mem ->
  _MHD_GET_32BIT_BE host mem addr = Some v ->
  _MHD_PUT_32BIT_BE host mem addr v = Some mem.
Proof.
  intros Hbytes Hget.
  destruct (get_32bit_be_inv host mem addr v Hget) as (b0 & b1 & b2 & b3 & Hc).
  assert (Hlen : (addr + 4 <= length mem)%nat).
  { apply (f_equal length) in Hc. rewrite length_take, length_drop in Hc.
    cbn [length] in Hc. lia. }
  assert (Hb : Forall (fun b => 0 <= b < 256) [b0; b1; b2; b3]).
  { rewrite <- Hc. apply Forall_take, Forall_drop. exact Hbytes. }
  apply Forall_cons_1 in Hb as [H0 Hb]. apply Forall_cons_1 in Hb as [H1 Hb].
  apply Forall_cons_1 in Hb as [H2 Hb]. apply Forall_cons_1 in Hb as [H3 _].
  rewrite (get_32bit_be_cells host mem addr b0 b1 b2 b3) in Hget by assumption.
  injection Hget as <-.
  rewrite <- (splice_self mem addr 4) at 1.
  rewrite put_32bit_be_on_splice; [| apply cells_length; exact Hlen | exact Hlen].
  rewrite be_bytes32_be32, !uint8_t_byte by assumption.
  rewrite <- Hc. rewrite splice_self. reflexivity.
Qed.

Lemma get_put_32bit_be_witness :
  _MHD_PUT_32BIT_BE _MHD_BIG_ENDIAN [0; 18; 52; 86; 120; 0] 1 305419896
  = Some [0; 18; 52; 86; 120; 0].
Proof.
  apply (get_put_32bit_be _MHD_BIG_ENDIAN [0; 18; 52; 86; 120; 0] 1
           305419896).
  - repeat (apply Forall_cons_2; [lia |]). apply Forall_nil_2.
  - reflexivity.
Defined.

(** X5. On a host of any byte order [_MHD_PUT_64BIT_BE] stores the eight
    bytes of the value, most significant first, and leaves the rest of the
    buffer alone; it does what two calls of [_MHD_PUT_32BIT_BE] do, the high
    word at [addr] and the low word at [addr + 4]. *)
Theorem put_64bit_be_two_words (host : byte_order) (mem : list Z) (addr : nat)
    (v : Z) :
  (addr + 8 <= length mem)%nat ->
  _MHD_PUT_64BIT_BE host mem addr v
  = Some (take addr mem ++ be_bytes 8 v ++ drop (addr + 8) mem)
  /\ _MHD_PUT_64BIT_BE host mem addr v
     = (mem' ← _MHD_PUT_32BIT_BE host mem addr (v / 2 ^ 32);
        _MHD_PUT_32BIT_BE host mem' (addr + 4) v).
Proof.
  intros Hlen. rewrite put_64bit_be_splice by exact Hlen.
  split; [reflexivity |].
  rewrite put_32bit_be_splice by lia. cbn [mbind option_bind].
  rewrite put_32bit_be_splice by (rewrite splice_length; rewrite ?be_bytes_length; lia).
  f_equal. rewrite be_bytes_8_halves.
  rewrite <- (splice_app mem addr (be_bytes 4 (v / 2 ^ 32)) (be_bytes 4 v))
    by (rewrite !be_bytes_length; lia).
  rewrite be_bytes_length. reflexivity.
Qed.

Lemma put_64bit_be_two_words_witness :
  _MHD_PUT_64BIT_BE _MHD_LITTLE_ENDIAN (replicate 10 0) 1 81985529216486895
  = (mem' ← _MHD_PUT_32BIT_BE _MHD_LITTLE_ENDIAN (replicate 10 0) 1
              (81985529216486895 / 2 ^ 32);
     _MHD_PUT_32BIT_BE _MHD_LITTLE_ENDIAN mem' (1 + 4) 81985529216486895).
Proof.
  apply (proj2 (put_64bit_be_two_words _MHD_LITTLE_ENDIAN (replicate 10 0) 1
                  81985529216486895 ltac:(simpl; lia))).
Defined.

(** X7. On a host of any byte order [_MHD_PUT_64BIT_LE] stores the eight
    bytes of the value, least significant first, and leaves the rest of the
    buffer alone; it does what two calls of [_MHD_PUT_32BIT_LE] do, the low
    word at [addr] and the high word at [addr + 4]. *)
Theorem put_64bit_le_two_words (host : byte_order) (mem : list Z) (addr : nat)
    (v : Z) :
  (addr + 8 <= length mem)%nat ->
  _MHD_PUT_64BIT_LE host mem addr v
  = Some (take addr mem ++ rev (be_bytes 8 v) ++ drop (addr + 8) mem)
  /\ _MHD_PUT_64BIT_LE host mem addr v
     = (mem' ← _MHD_PUT_32BIT_LE host mem addr v;
        _MHD_PUT_32BIT_LE host mem' (addr + 4) (v / 2 ^ 32)).
Proof.
  intros Hlen. rewrite put_64bit_le_splice by exact Hlen.
  split; [reflexivity |].
  rewrite put_32bit_le_splice by lia. cbn [mbind option_bind].
  rewrite put_32bit_le_splice
    by (rewrite splice_length; rewrite ?length_rev, ?be_bytes_length; lia).
  f_equal. rewrite be_bytes_8_halves, rev_app_distr.
  rewrite <- (splice_app mem addr (rev (be_bytes 4 v))
                (rev (be_bytes 4 (v / 2 ^ 32))))
    by (rewrite !length_rev, !be_bytes_length; lia).
  rewrite length_rev, be_bytes_length. reflexivity.
Qed.

Lemma put_64bit_le_two_words_witness :
  _MHD_PUT_64BIT_LE _MHD_BIG_ENDIAN (replicate 10 0) 1 81985529216486895
  = (mem' ← _MHD_PUT_32BIT_LE _MHD_BIG_ENDIAN (replicate 10 0) 1
              81985529216486895;
     _MHD_PUT_32BIT_LE _MHD_BIG_ENDIAN mem' (1 + 4)
       (81985529216486895 / 2 ^ 32)).
Proof.
  apply (proj2 (put_64bit_le_two_words _MHD_BIG_ENDIAN (replicate 10 0) 1
                  81985529216486895 ltac:(simpl; lia))).
Defined.

Lemma get_32bit_be_of_cells (host : byte_order) (mem : list Z) (addr : nat)
    (v : Z) :
  take 4 (drop addr mem) = be_bytes 4 v ->
  _MHD_GET_32BIT_BE host mem addr = Some (v mod 2 ^ 32).
Proof.
  intros Hcells. rewrite <- be_bytes32_arith in Hcells.
  assert (Hl : forall i b, be_bytes32 v !! i = Some b ->
                           mem !! (addr + i)%nat = Some b).
  { intros i b Hi. rewrite <- Hcells in Hi.
    apply lookup_take_Some in Hi as [Hi _]. rewrite lookup_drop in Hi.
    exact Hi. }
  rewrite <- uint32_t_mod.
  apply get_32bit_be_of_layout; apply Hl; reflexivity.
Qed.

Lemma splice_app_cells (mem : list Z) (addr : nat) (xs ys : list Z) :
  (addr + length xs + length ys <= length mem)%nat ->
  take (length xs) (drop addr (splice mem addr (xs ++ ys))) = xs
  /\ take (length ys)
       (drop (addr + length xs) (splice mem addr (xs ++ ys))) = ys.
Proof.
  intros Hlen. unfold splice.
  assert (Ht : length (take addr mem) = addr) by (rewrite length_take; lia).
  split.
  - rewrite drop_app_length' by lia.
    rewrite <- app_assoc. apply take_app_length.
  - rewrite <- app_assoc, (app_assoc (take addr mem) xs).
    rewrite drop_app_length' by (rewrite length_app; lia).
    apply take_app_length.
Qed.

(** X6. After [_MHD_PUT_64BIT_BE] has stored a value at [addr],
    [_MHD_GET_32BIT_BE] reads its high word at [addr] and its low word at
    [addr + 4]. *)
Theorem put_64bit_be_get_words (host : byte_order) (mem : list Z)
    (addr : nat) (v : Z) :
  (addr + 8 <= length mem)%nat ->
  exists mem',
    _MHD_PUT_64BIT_BE host mem addr v = Some mem'
    /\ _MHD_GET_32BIT_BE host mem' addr = Some ((v / 2 ^ 32) mod 2 ^ 32)
    /\ _MHD_GET_32BIT_BE host mem' (addr + 4) = Some (v mod 2 ^ 32).
Proof.
  intros Hlen. eexists. split; [apply put_64bit_be_splice; exact Hlen |].
  rewrite be_bytes_8_halves.
  destruct (splice_app_cells mem addr (be_bytes 4 (v / 2 ^ 32)) (be_bytes 4 v))
    as [Hhi Hlo]; [rewrite !be_bytes_length; lia |].
  rewrite !be_bytes_length in *.
  split; apply get_32bit_be_of_cells; assumption.
Qed.

Lemma put_64bit_be_get_words_witness :
  exists mem',
    _MHD_PUT_64BIT_BE _MHD_LITTLE_ENDIAN (replicate 10 0) 1 81985529216486895
    = Some mem'
    /\ _MHD_GET_32BIT_BE _MHD_LITTLE_ENDIAN mem' 1
       = Some ((81985529216486895 / 2 ^ 32) mod 2 ^ 32)
    /\ _MHD_GET_32BIT_BE _MHD_LITTLE_ENDIAN mem' (1 + 4)
       = Some (81985529216486895 mod 2 ^ 32).
Proof.
  apply (put_64bit_be_get_words _MHD_LITTLE_ENDIAN (replicate 10 0) 1
           81985529216486895).
  simpl. lia.
Defined.

Lemma uint32_t_small (v : Z) : 0 <= v < 2 ^ 32 -> uint32_t v = v.
Proof. intros H. rewrite uint32_t_mod. apply Z.mod_small. exact H. Qed.

Lemma rotr32_bits (x bits n : Z) :
  0 < bits < 32 -> 0 <= n ->
  Z.testbit (_MHD_ROTR32 (uint32_t x) bits) n
  = if n <? 32 - bits then Z.testbit x (n + bits)
    else if n <? 32 then Z.testbit x (n + bits - 32)
    else false.
Proof.
  intros Hb Hn. unfold _MHD_ROTR32, uint32_t. bits_solve.
Qed.

Lemma rotr32_uint32 (x bits : Z) :
  0 < bits < 32 ->
  uint32_t (_MHD_ROTR32 (uint32_t x) bits) = _MHD_ROTR32 (uint32_t x) bits.
Proof.
  intros Hb. unfold _MHD_ROTR32, uint32_t.
  apply Z.bits_inj'; intros n Hn. bits_solve.
Qed.

(** X8. For a 32-bit value and a count between 1 and 31 [_MHD_ROTR32] is
    the rotation to the right: the bits above the count move down and the
    [bits] low bits move to the top, [v / 2^bits + (v mod 2^bits) *
    2^(32 - bits)]; the result is a 32-bit value. *)
Theorem rotr32_arith (v bits : Z) :
  0 <= v < 2 ^ 32 -> 0 < bits < 32 ->
  _MHD_ROTR32 v bits = v / 2 ^ bits + (v mod 2 ^ bits) * 2 ^ (32 - bits)
  /\ 0 <= _MHD_ROTR32 v bits < 2 ^ 32.
Proof.
  intros Hv Hb.
  assert (Hr : _MHD_ROTR32 v bits
               = v / 2 ^ bits + (v mod 2 ^ bits) * 2 ^ (32 - bits)).
  { rewrite <- (uint32_t_small v Hv) at 1. unfold _MHD_ROTR32.
    rewrite lor_disjoint.
    2:{ unfold uint32_t. apply Z.bits_inj'; intros n Hn. rewrite Z.bits_0.
        bits_solve. }
    rewrite Z.shiftr_div_pow2 by lia. rewrite uint32_t_small by exact Hv.
    f_equal.
    rewrite <- Z.shiftl_mul_pow2 by lia. rewrite <- Z.land_ones by lia.
    unfold uint32_t. apply Z.bits_inj'; intros n Hn. bits_solve. }
  split; [exact Hr |].
  rewrite <- (uint32_t_small v Hv), <- rotr32_uint32 by exact Hb.
  rewrite uint32_t_mod. apply Z.mod_pos_bound. lia.
Qed.

Lemma rotr32_arith_witness :
  _MHD_ROTR32 2147483649 1
  = 2147483649 / 2 ^ 1 + (2147483649 mod 2 ^ 1) * 2 ^ (32 - 1)
  /\ 0 <= _MHD_ROTR32 2147483649 1 < 2 ^ 32.
Proof. apply (rotr32_arith 2147483649 1); lia. Defined.

(** X9. Rotations compose by adding their counts modulo 32: rotating by
    [a] and then by [b] is the identity when [a + b = 32], and otherwise the
    rotation by the count [c] between 1 and 31 that is [a + b] modulo 32.
    Every count is a value held in a variable, as [_MHD_ROTR32] takes it;
    the macro written at a sum is another expression, of which this says
    nothing. *)
Theorem rotr32_composition (v a b c : Z) :
  0 <= v < 2 ^ 32 -> 0 < a < 32 -> 0 < b < 32 ->
  (a + b = 32 -> _MHD_ROTR32 (_MHD_ROTR32 v a) b = v)
  /\ (0 < c < 32 -> (a + b) mod 32 = c ->
      _MHD_ROTR32 (_MHD_ROTR32 v a) b = _MHD_ROTR32 v c).
Proof.
  intros Hv Ha Hb.
  rewrite <- (uint32_t_small v Hv).
  rewrite <- (rotr32_uint32 v a Ha).
  split.
  - intros Hab; apply Z.bits_inj'; intros n Hn;
      rewrite (rotr32_bits _ b) by lia; bits_split;
      rewrite ?rotr32_bits by lia; unfold uint32_t; bits_solve.
  - intros Hc Hmod.
    assert (Hsum : a + b = c \/ a + b = c + 32)
      by (Z.div_mod_to_equations; lia).
    apply Z.bits_inj'; intros n Hn;
      rewrite (rotr32_bits _ b) by lia; rewrite (rotr32_bits _ c) by lia;
      bits_split; rewrite ?rotr32_bits by lia; unfold uint32_t;
      destruct Hsum; bits_solve.
Qed.

Lemma rotr32_composition_witness :
  _MHD_ROTR32 (_MHD_ROTR32 305419896 8) 24 = 305419896
  /\ _MHD_ROTR32 (_MHD_ROTR32 305419896 8) 28 = _MHD_ROTR32 305419896 4.
Proof.
  split.
  - apply (proj1 (rotr32_composition 305419896 8 24 1 ltac:(lia) ltac:(lia)
                    ltac:(lia))).
    reflexivity.
  - apply (proj2 (rotr32_composition 305419896 8 28 4 ltac:(lia) ltac:(lia)
                    ltac:(lia))).
    + lia.
    + reflexivity.
Defined.

(** ** More on negotiation, the phases and response queueing *)

(** X10. On a read buffer that holds [read_buffer_offset] bytes
    [h2_is_h2_preface] answers [MHD_YES] or [MHD_NO], and [MHD_YES] exactly
    when it holds at least 24 bytes of which the first 24 are the token, or
    16 to 23 bytes of which the first 16 are those of the token.  So fewer
    than 16 bytes are answered [MHD_NO] even when they begin the token, and
    with 16 to 23 bytes those after the sixteenth are not looked at. *)
Theorem h2_is_h2_preface_exact (c : MHD_Connection) (buf : list Z) :
  read_buffer c = Some buf ->
  read_buffer_offset c <= Z.of_nat (length buf) ->
  (h2_is_h2_preface c = Some MHD_YES \/ h2_is_h2_preface c = Some MHD_NO)
  /\ (h2_is_h2_preface c = Some MHD_YES
      <-> (H2_MAGIC_TOKEN_LEN <= read_buffer_offset c
           /\ take 24 buf = H2_MAGIC_TOKEN)
          \/ (H2_MAGIC_TOKEN_LEN_MIN <= read_buffer_offset c < H2_MAGIC_TOKEN_LEN
              /\ take 16 buf = take 16 H2_MAGIC_TOKEN)).
Proof.
  intros Hbuf Hlen.
  unfold h2_is_h2_preface, H2_MAGIC_TOKEN_LEN, H2_MAGIC_TOKEN_LEN_MIN.
  rewrite Hbuf. cbn [mbind option_bind].
  change (Z.to_nat 24) with 24%nat. change (Z.to_nat 16) with 16%nat.
  assert (Htok : take 24 H2_MAGIC_TOKEN = H2_MAGIC_TOKEN) by reflexivity.
  destruct (Z.leb_spec 24 (read_buffer_offset c)) as [H24|H24].
  - destruct (memcmp_spec 24 H2_MAGIC_TOKEN buf) as (r & Hr & Hiff);
      [rewrite H2_MAGIC_TOKEN_length; lia | lia |].
    rewrite Hr. cbn [mbind option_bind]. rewrite Htok in Hiff.
    unfold lnot, MHD_YES, MHD_NO. destruct (Z.eqb_spec r 0) as [Hz|Hz].
    + split; [left; reflexivity |]. split; [| reflexivity].
      intros _. left. split; [exact H24 |]. symmetry. apply Hiff. exact Hz.
    + split; [right; reflexivity |]. split; [discriminate |].
      intros [[_ Heq]|[Hlt _]]; [| lia].
      exfalso. apply Hz, Hiff. symmetry. exact Heq.
  - destruct (Z.leb_spec 16 (read_buffer_offset c)) as [H16|H16].
    + destruct (memcmp_spec 16 H2_MAGIC_TOKEN buf) as (r & Hr & Hiff);
        [rewrite H2_MAGIC_TOKEN_length; lia | lia |].
      rewrite Hr. cbn [mbind option_bind].
      unfold lnot, MHD_YES, MHD_NO. destruct (Z.eqb_spec r 0) as [Hz|Hz].
      * split; [left; reflexivity |]. split; [| reflexivity].
        intros _. right. split; [lia |]. symmetry. apply Hiff. exact Hz.
      * split; [right; reflexivity |]. split; [discriminate |].
        intros [[Hge _]|[_ Heq]]; [lia |].
        exfalso. apply Hz, Hiff. symmetry. exact Heq.
    + unfold MHD_YES, MHD_NO. split; [right; reflexivity |].
      split; [discriminate |]. intros [[Hge _]|[Hge _]]; lia.
Qed.

Lemma h2_is_h2_preface_exact_witness :
  h2_is_h2_preface
    (connection_holding (take 16 H2_MAGIC_TOKEN ++ [1; 2; 3; 4]))
  = Some MHD_YES.
Proof.
  apply (proj2 (h2_is_h2_preface_exact
                  (connection_holding (take 16 H2_MAGIC_TOKEN ++ [1; 2; 3; 4]))
                  (take 16 H2_MAGIC_TOKEN ++ [1; 2; 3; 4]) eq_refl
                  ltac:(vm_compute; intros H; discriminate H))).
  right. split; [| reflexivity].
  vm_compute. split; [intros H; discriminate H | reflexivity].
Defined.

(** X11. What the phases never touch, whatever the collaborators answer and
    whether or not the phase closes the connection: the read phase leaves
    [read_buffer_start_offset] and both write offsets as they are, the write
    phase both read offsets and [read_closed], the idle phase both write
    offsets and [read_closed]. *)
Theorem phases_frame (w : Collaborators) (c : MHD_Connection) :
  (read_buffer_start_offset (h2_connection_handle_read w c)
   = read_buffer_start_offset c
   /\ write_buffer_send_offset (h2_connection_handle_read w c)
      = write_buffer_send_offset c
   /\ write_buffer_append_offset (h2_connection_handle_read w c)
      = write_buffer_append_offset c)
  /\ (read_buffer_start_offset (h2_connection_handle_write w c)
      = read_buffer_start_offset c
      /\ read_buffer_offset (h2_connection_handle_write w c)
         = read_buffer_offset c
      /\ read_closed (h2_connection_handle_write w c) = read_closed c)
  /\ (write_buffer_send_offset (fst (h2_connection_handle_idle w c))
      = write_buffer_send_offset c
      /\ write_buffer_append_offset (fst (h2_connection_handle_idle w c))
         = write_buffer_append_offset c
      /\ read_closed (fst (h2_connection_handle_idle w c)) = read_closed c).
Proof.
  split; [| split].
  - unfold h2_connection_handle_read.
    destruct (_ || _); [tauto |].
    assert (H : forall c1,
               read_buffer_start_offset c1 = read_buffer_start_offset c ->
               write_buffer_send_offset c1 = write_buffer_send_offset c ->
               write_buffer_append_offset c1 = write_buffer_append_offset c ->
               read_buffer_start_offset (read_from_socket w c1)
               = read_buffer_start_offset c
               /\ write_buffer_send_offset (read_from_socket w c1)
                  = write_buffer_send_offset c
               /\ write_buffer_append_offset (read_from_socket w c1)
                  = write_buffer_append_offset c).
    { intros c1 H1 H2 H3. unfold read_from_socket.
      destruct (h2 c1); [| tauto].
      destruct (recv_cls w c1 _ _) as [bytes_read data].
      destruct (bytes_read <? 0).
      - destruct (MHD_ERR_AGAIN_ =? bytes_read); [tauto |].
        destruct (MHD_ERR_CONNRESET_ =? bytes_read); cbn; tauto.
      - destruct (0 =? bytes_read); cbn; tauto. }
    destruct (read_buffer_size c <? _).
    + unfold try_grow_read_buffer.
      destruct (MHD_pool_reallocate w c) as [[buf n]|].
      * destruct (_ =? _); [cbn; tauto |]. apply H; reflexivity.
      * destruct (_ =? _); [tauto |]. apply H; reflexivity.
    + destruct (_ =? _); [tauto |]. apply H; reflexivity.
  - unfold h2_connection_handle_write.
    destruct (h2 c); [| tauto].
    unfold flush_write_buffer.
    assert (H : forall c1,
               read_buffer_start_offset c1 = read_buffer_start_offset c ->
               read_buffer_offset c1 = read_buffer_offset c ->
               read_closed c1 = read_closed c ->
               let c2 :=
                 (let filled := h2_fill_write_buffer w h c1 in
                  let connection := fill_write_buffer filled c1 in
                  if negb (fill_rv filled =? 0)
                  then MHD_connection_close_ connection
                         MHD_REQUEST_TERMINATED_WITH_ERROR
                  else finish_write w (fill_h2 filled) connection) in
               read_buffer_start_offset c2 = read_buffer_start_offset c
               /\ read_buffer_offset c2 = read_buffer_offset c
               /\ read_closed c2 = read_closed c).
    { intros c1 H1 H2 H3. cbn zeta. unfold finish_write.
      destruct (negb _); [cbn; tauto |].
      destruct (session_finished _ _); cbn; tauto. }
    destruct (0 <? _); [| apply H; reflexivity].
    destruct (send_cls w c _ _ <? 0).
    + destruct (MHD_ERR_AGAIN_ =? _); cbn; tauto.
    + destruct (size_sub _ _ =? 0); apply H; reflexivity.
  - unfold h2_connection_handle_idle.
    change (h2 (set_in_idle true c)) with (h2 c).
    destruct (h2 c); [| cbn; tauto].
    destruct (bool_decide _); [cbn; tauto |].
    destruct (nghttp2_session_mem_recv w h _ _) as [rv h2s'].
    destruct (rv <? 0); [cbn; tauto |].
    cbn [fst].
    destruct (read_buffer_offset _ =? read_buffer_start_offset _);
      destruct (negb _); cbn; tauto.
Qed.

Lemma closures_app (l1 l2 : list collaborator_call) :
  closures (l1 ++ l2) = (closures l1 + closures l2)%nat.
Proof. induction l1 as [|e l1 IH]; cbn [closures app]; lia. Qed.

Lemma nothing_added (c c' : MHD_Connection) :
  calls c' = calls c -> (h2 c = None -> h2 c' = None) ->
  closes_at_most_once c c'.
Proof.
  intros Hc Hh. exists []. rewrite app_nil_r. split; [exact Hc |].
  left. split; [reflexivity | exact Hh].
Qed.

Lemma close_added (c c1 : MHD_Connection) (pre : list collaborator_call)
    (code : MHD_RequestTerminationCode) :
  calls c1 = calls c ++ pre -> closures pre = 0%nat -> h2 c <> None ->
  closes_at_most_once c (MHD_connection_close_ c1 code).
Proof.
  intros Hc Hpre Hh. exists (pre ++ [connection_closed code]).
  split; [cbn; rewrite Hc, app_assoc; reflexivity |].
  right. rewrite closures_app, Hpre. cbn. tauto.
Qed.

Lemma read_closes_at_most_once (w : Collaborators) (c : MHD_Connection) :
  closes_at_most_once c (h2_connection_handle_read w c).
Proof.
  unfold h2_connection_handle_read.
  destruct (_ || _); [apply nothing_added; tauto |].
  assert (H : forall c1, calls c1 = calls c -> h2 c1 = h2 c ->
                         closes_at_most_once c (read_from_socket w c1)).
  { intros c1 Hc Hh. unfold read_from_socket.
    destruct (h2 c1) eqn:Hh1;
      [| apply nothing_added; [exact Hc | intros _; exact Hh1]].
    assert (Hsome : h2 c <> None) by congruence.
    destruct (recv_cls w c1 _ _) as [bytes_read data].
    destruct (bytes_read <? 0).
    - destruct (MHD_ERR_AGAIN_ =? bytes_read);
        [apply nothing_added; [exact Hc | congruence] |].
      destruct (MHD_ERR_CONNRESET_ =? bytes_read);
        unfold connection_close_error;
        eapply (close_added c _ [_]); cbn; try rewrite Hc; try reflexivity;
        exact Hsome.
    - destruct (0 =? bytes_read).
      + eapply (close_added c _ []); cbn; rewrite ?app_nil_r;
          try reflexivity; assumption.
      + apply nothing_added; [exact Hc | congruence]. }
  destruct (read_buffer_size c <? _).
  - assert (Hg : calls (try_grow_read_buffer w c) = calls c
                 /\ h2 (try_grow_read_buffer w c) = h2 c).
    { unfold try_grow_read_buffer.
      destruct (MHD_pool_reallocate w c) as [[buf n]|]; cbn; tauto. }
    destruct Hg as [Hg1 Hg2].
    destruct (_ =? _); [apply nothing_added; congruence |].
    apply H; assumption.
  - destruct (_ =? _); [apply nothing_added; tauto |].
    apply H; reflexivity.
Qed.

Lemma write_closes_at_most_once (w : Collaborators) (c : MHD_Connection) :
  closes_at_most_once c (h2_connection_handle_write w c).
Proof.
  unfold h2_connection_handle_write.
  destruct (h2 c) as [h2s|] eqn:Hh; [| apply nothing_added; tauto].
  assert (Hsome : h2 c <> None) by congruence.
  assert (H : forall c1, calls c1 = calls c ->
               closes_at_most_once c
                 (let filled := h2_fill_write_buffer w h2s c1 in
                  let connection := fill_write_buffer filled c1 in
                  if negb (fill_rv filled =? 0)
                  then MHD_connection_close_ connection
                         MHD_REQUEST_TERMINATED_WITH_ERROR
                  else finish_write w (fill_h2 filled) connection)).
  { intros c1 Hc. cbn zeta. unfold finish_write.
    destruct (negb _).
    - eapply (close_added c _ []); cbn; rewrite ?app_nil_r;
        try reflexivity; assumption.
    - destruct (session_finished _ _).
      + eapply (close_added c _ []); cbn; rewrite ?app_nil_r;
          try reflexivity; assumption.
      + apply nothing_added; [cbn; exact Hc | congruence]. }
  unfold flush_write_buffer.
  destruct (0 <? _); [| apply H; reflexivity].
  destruct (send_cls w c _ _ <? 0).
  - destruct (MHD_ERR_AGAIN_ =? _); [apply nothing_added; congruence |].
    eapply (close_added c _ []); cbn; rewrite ?app_nil_r;
      try reflexivity; assumption.
  - destruct (size_sub _ _ =? 0); apply H; reflexivity.
Qed.

Lemma idle_closes_at_most_once (w : Collaborators) (c : MHD_Connection) :
  closes_at_most_once c (fst (h2_connection_handle_idle w c)).
Proof.
  unfold h2_connection_handle_idle.
  change (h2 (set_in_idle true c)) with (h2 c).
  destruct (h2 c) as [h2s|] eqn:Hh.
  - assert (Hsome : h2 c <> None) by congruence.
    destruct (bool_decide _).
    + exists [connection_cleaned_up]. split; [reflexivity |].
      left. split; [reflexivity | congruence].
    + destruct (nghttp2_session_mem_recv w h2s _ _) as [rv h2s'].
      destruct (rv <? 0).
      * cbn [fst]. eapply (close_added c _ [_; _]); cbn;
          rewrite <- ?app_assoc; try reflexivity; assumption.
      * cbn [fst]. apply nothing_added; [| congruence].
        destruct (read_buffer_offset _ =? read_buffer_start_offset _);
          destruct (negb _); reflexivity.
  - exists [connection_cleaned_up]. split; [reflexivity |].
    left. split; [reflexivity |]. intros _. cbn. exact Hh.
Qed.

Lemma run_phase_closes_at_most_once (w : Collaborators) (p : phase)
    (c : MHD_Connection) :
  closes_at_most_once c (run_phase w p c).
Proof.
  destruct p; cbn [run_phase].
  - apply read_closes_at_most_once.
  - apply idle_closes_at_most_once.
  - apply write_closes_at_most_once.
Qed.

(** X15. One invocation of a read, idle or write phase, whatever the
    collaborators answer, closes the connection at most once, and a phase
    that finds the connection without a session closes nothing.  The record
    is of the calls the phase makes itself: every call of
    [MHD_connection_close_] or [connection_close_error] in a phase is
    followed by its return, and comes after the test of the session. *)
Theorem phase_closes_at_most_once (w : Collaborators) (p : phase)
    (c : MHD_Connection) :
  exists added,
    calls (run_phase w p c) = calls c ++ added
    /\ (closures added <= 1)%nat
    /\ (h2 c = None -> closures added = 0%nat).
Proof.
  destruct (run_phase_closes_at_most_once w p c) as (added & Hadd & Hcases).
  exists added. split; [exact Hadd |].
  destruct Hcases as [[Hzero _] | (Hone & Hsome & _)].
  - split; [lia | intros _; exact Hzero].
  - split; [lia | intros Hnone; contradiction].
Qed.

Lemma run_phase_closed (w : Collaborators) (p : phase) (c : MHD_Connection) :
  state c = MHD_CONNECTION_CLOSED -> h2 c = None ->
  same_but_calls c (run_phase w p c)
  /\ closures (calls (run_phase w p c)) = closures (calls c)
  /\ (p = idle_phase -> snd (h2_connection_handle_idle w c) = MHD_NO).
Proof.
  intros Hst Hh2. unfold same_but_calls. destruct p; cbn [run_phase].
  - unfold h2_connection_handle_read. rewrite <- Hst.
    rewrite bool_decide_eq_true_2 by reflexivity. cbn [orb].
    destruct c; cbn. split; [reflexivity |]. split; [reflexivity | discriminate].
  - unfold h2_connection_handle_idle.
    change (h2 (set_in_idle true c)) with (h2 c). rewrite Hh2.
    cbn [fst snd]. split; [destruct c; reflexivity |].
    split; [| reflexivity]. cbn. rewrite closures_app. cbn. lia.
  - unfold h2_connection_handle_write. rewrite Hh2.
    destruct c; cbn. split; [reflexivity |]. split; [reflexivity | discriminate].
Qed.

Lemma same_but_calls_fields (c c' : MHD_Connection) :
  same_but_calls c c' ->
  state c' = state c /\ h2 c' = h2 c.
Proof.
  unfold same_but_calls. intros H.
  split; [apply (f_equal state) in H | apply (f_equal h2) in H]; exact H.
Qed.

Lemma same_but_calls_trans (c c1 c2 : MHD_Connection) :
  same_but_calls c c1 -> same_but_calls c1 c2 -> same_but_calls c c2.
Proof.
  unfold same_but_calls. destruct c, c1, c2. cbn. intros H1 H2.
  injection H1 as -> -> -> -> -> -> -> -> -> -> -> -> -> -> -> ->.
  injection H2 as -> -> -> -> -> -> -> -> -> -> -> -> -> -> -> ->.
  reflexivity.
Qed.

Lemma states_after_closed (steps : list (phase * Collaborators)) :
  forall c0 c : MHD_Connection,
    state c0 = MHD_CONNECTION_CLOSED -> h2 c0 = None ->
    same_but_calls c0 c -> closures (calls c) = closures (calls c0) ->
    Forall (fun c' => same_but_calls c0 c'
                      /\ closures (calls c') = closures (calls c0))
      (states_after steps c).
Proof.
  induction steps as [|[p w] steps IH]; intros c0 c Hst Hh2 Hsame Hcl;
    cbn [states_after]; [apply Forall_nil_2 |].
  destruct (same_but_calls_fields c0 c Hsame) as [Hst' Hh2'].
  destruct (run_phase_closed w p c) as (Hstep & Hcl' & _);
    [congruence | congruence |].
  assert (Hsame' : same_but_calls c0 (run_phase w p c))
    by (eapply same_but_calls_trans; eassumption).
  apply Forall_cons_2; [split; [exact Hsame' | congruence] |].
  apply IH; [assumption .. | congruence].
Qed.

Lemma h2_connection_close_facts (c : MHD_Connection) :
  state (h2_connection_close c) = MHD_CONNECTION_CLOSED
  /\ h2 (h2_connection_close c) = None
  /\ calls (h2_connection_close c) = calls c.
Proof. destruct c. cbv. tauto. Qed.

(** X16. The connection [h2_connection_close] leaves is terminal for the
    phases: the read phase returns at its test of the state, the write phase
    at its test of the session and the idle phase at its test of both, so
    every later read, idle or write phase leaves all of the connection but
    [in_idle] and the record of calls as it is, closes nothing, and the idle
    phase answers [MHD_NO]. *)
Theorem closed_is_terminal (steps : list (phase * Collaborators))
    (c : MHD_Connection) :
  Forall (fun c' => same_but_calls (h2_connection_close c) c'
                    /\ closures (calls c') = closures (calls c))
    (states_after steps (h2_connection_close c))
  /\ (forall w, snd (h2_connection_handle_idle w (h2_connection_close c))
                = MHD_NO).
Proof.
  destruct (h2_connection_close_facts c) as (Hst & Hh2 & Hcalls).
  generalize dependent (h2_connection_close c). intros c0 Hst Hh2 Hcalls.
  split.
  - rewrite <- Hcalls.
    apply (states_after_closed steps c0 c0); try assumption; try reflexivity.
    unfold same_but_calls. destruct c0; reflexivity.
  - intros w. apply (run_phase_closed w idle_phase c0); auto.
Qed.

Lemma prepare_read_buffer_frame (w : Collaborators) (c : MHD_Connection) :
  state (prepare_read_buffer w c) = state c
  /\ h2 (prepare_read_buffer w c) = h2 c
  /\ calls (prepare_read_buffer w c) = calls c
  /\ read_closed (prepare_read_buffer w c) = read_closed c
  /\ read_buffer_offset (prepare_read_buffer w c) = read_buffer_offset c.
Proof.
  unfold prepare_read_buffer, try_grow_read_buffer.
  destruct (_ <? _); [| tauto].
  destruct (MHD_pool_reallocate w c) as [[buf n]|]; cbn; tauto.
Qed.

(** X12. On an open connection whose read buffer has room for one pool
    increment, or is grown by the pool, the read phase closes the connection
    exactly when it gets to the read primitive (not suspended, room in the
    buffer, a session) and the primitive answers 0 or an error other than
    would-block.  The end of the stream (0) sets [read_closed] and closes
    with the reason "client abort"; an error logs a message and closes with
    the reason "error"; when the phase does not close, it records no call.
    A phase in which the pool refuses to grow the buffer is left out: what
    [try_grow_read_buffer] does then is not in the sources at hand. *)
Theorem read_phase_closes_iff (w : Collaborators) (c : MHD_Connection)
    (r : Z) (data : list Z) :
  state c <> MHD_CONNECTION_CLOSED ->
  (read_buffer_size c < size_add (read_buffer_offset c) (pool_increment c) ->
   MHD_pool_reallocate w c <> None) ->
  recv_cls w (prepare_read_buffer w c)
    (read_buffer_offset c)
    (size_sub (read_buffer_size (prepare_read_buffer w c))
              (read_buffer_offset c)) = (r, data) ->
  (state (h2_connection_handle_read w c) = MHD_CONNECTION_CLOSED
   <-> suspended c = false
       /\ read_buffer_size (prepare_read_buffer w c) <> read_buffer_offset c
       /\ h2 c <> None
       /\ r <= 0 /\ r <> MHD_ERR_AGAIN_)
  /\ (state (h2_connection_handle_read w c) = MHD_CONNECTION_CLOSED ->
      (r = 0 ->
       calls (h2_connection_handle_read w c)
       = calls c ++ [connection_closed MHD_REQUEST_TERMINATED_CLIENT_ABORT]
       /\ read_closed (h2_connection_handle_read w c) = true)
      /\ (r < 0 ->
          exists emsg,
            calls (h2_connection_handle_read w c)
            = calls c ++ [error_logged emsg;
                          connection_closed MHD_REQUEST_TERMINATED_WITH_ERROR]
            /\ read_closed (h2_connection_handle_read w c) = read_closed c))
  /\ (state (h2_connection_handle_read w c) <> MHD_CONNECTION_CLOSED ->
      calls (h2_connection_handle_read w c) = calls c).
Proof.
  intros Hopen _ Hrecv.
  destruct (prepare_read_buffer_frame w c) as (Hst & Hh2 & Hcalls & Hrc & Hoff).
  assert (Hrun : h2_connection_handle_read w c
                 = if suspended c then c
                   else if read_buffer_size (prepare_read_buffer w c)
                             =? read_buffer_offset c
                        then prepare_read_buffer w c
                        else read_from_socket w (prepare_read_buffer w c)).
  { unfold h2_connection_handle_read.
    rewrite bool_decide_eq_false_2 by congruence. cbn [orb].
    destruct (suspended c); [reflexivity |].
    fold (prepare_read_buffer w c). rewrite Hoff. reflexivity. }
  rewrite Hrun. clear Hrun.
  destruct (suspended c).
  { split; [split; [congruence | intros (H & _); discriminate H] |].
    split; [congruence | reflexivity]. }
  destruct (Z.eqb_spec (read_buffer_size (prepare_read_buffer w c))
              (read_buffer_offset c)) as [Hfull|Hroom].
  { rewrite Hst. split; [split; [congruence | tauto] |].
    split; [congruence | intros _; exact Hcalls]. }
  unfold read_from_socket. rewrite Hh2, Hoff.
  destruct (h2 c) as [h2s|] eqn:Hh.
  2:{ rewrite Hst. split; [split; [congruence | tauto] |].
      split; [congruence | intros _; exact Hcalls]. }
  rewrite Hrecv.
  destruct (Z.ltb_spec r 0) as [Hneg|Hpos].
  - destruct (Z.eqb_spec MHD_ERR_AGAIN_ r) as [Hag|Hag].
    + rewrite Hst. split; [split; [congruence | intros (_&_&_&_&H); congruence] |].
      split; [congruence | intros _; exact Hcalls].
    + assert (Hcl : forall emsg,
                 state (connection_close_error (prepare_read_buffer w c) emsg)
                 = MHD_CONNECTION_CLOSED
                 /\ calls (connection_close_error (prepare_read_buffer w c) emsg)
                    = calls c ++ [error_logged emsg;
                         connection_closed MHD_REQUEST_TERMINATED_WITH_ERROR]
                 /\ read_closed
                      (connection_close_error (prepare_read_buffer w c) emsg)
                    = read_closed c).
      { intros emsg. cbn. rewrite Hcalls, Hrc, <- app_assoc. tauto. }
      destruct (MHD_ERR_CONNRESET_ =? r);
        match goal with
        | |- context [connection_close_error _ ?m] =>
            destruct (Hcl m) as (H1 & H2 & H3)
        end;
        (split; [split; [intros _; repeat split; try congruence; lia
                        | intros _; exact H1] |]);
        (split; [intros _; split; [lia | intros _; eexists; split; eassumption]
                | congruence]).
  - destruct (Z.eqb_spec 0 r) as [Hz|Hnz].
    + split; [split; [intros _; repeat split; try congruence; try lia;
                      unfold MHD_ERR_AGAIN_; lia
                     | reflexivity] |].
      split; [| cbn; congruence].
      intros _. split; [| lia]. intros _. cbn. rewrite Hcalls. tauto.
    + cbn [state MHD_update_last_activity_ set_last_activity
           set_read_buffer_offset set_read_buffer calls].
      rewrite Hst, Hcalls.
      split; [split; [congruence | intros (_&_&_&H&_); lia] |].
      split; [congruence | reflexivity].
Qed.

Lemma read_phase_closes_iff_witness :
  calls (h2_connection_handle_read (peer_sends 0) (sample_connection 2048 10))
  = calls (sample_connection 2048 10)
    ++ [connection_closed MHD_REQUEST_TERMINATED_CLIENT_ABORT]
  /\ read_closed
       (h2_connection_handle_read (peer_sends 0) (sample_connection 2048 10))
     = true.
Proof.
  destruct (read_phase_closes_iff (peer_sends 0) (sample_connection 2048 10)
              0 [] ltac:(discriminate)
              ltac:(vm_compute; intros H; discriminate H) eq_refl)
    as (Hiff & Hclosed & _).
  apply Hclosed; [| reflexivity].
  apply Hiff. repeat split; try discriminate; lia.
Defined.

Lemma buffer_slice_advance (buffer : option (list Z)) (offset len r : Z) :
  0 <= offset -> 0 <= r <= len ->
  buffer_slice buffer (offset + r) (len - r)
  = drop (Z.to_nat r) (buffer_slice buffer offset len).
Proof.
  intros Ho Hr. unfold buffer_slice.
  destruct buffer as [b|]; [| symmetry; apply drop_nil].
  rewrite Z2Nat.inj_add, Z2Nat.inj_sub by lia.
  rewrite <- drop_drop.
  rewrite (take_drop_commute (drop (Z.to_nat offset) b)).
  f_equal. f_equal. lia.
Qed.

Lemma buffer_slice_drained (buffer : option (list Z)) (offset len : Z) :
  buffer_slice buffer 0 0 = drop (Z.to_nat len) (buffer_slice buffer offset len).
Proof.
  unfold buffer_slice. destruct buffer as [b|]; [| symmetry; apply drop_nil].
  rewrite (drop_ge (take _ _)) by (rewrite length_take; lia). reflexivity.
Qed.

(** X13. The flush of the write phase (lines 127 to 155) keeps account of
    what is sent: when the write primitive takes [ret] of the pending bytes,
    the bytes pending afterwards are the pending bytes without their first
    [ret]; both offsets are reset to zero when all were taken, and only
    [write_buffer_send_offset] moves, by [ret], otherwise.  Nothing is
    closed. *)
Theorem flush_write_buffer_progress (w : Collaborators) (c : MHD_Connection)
    (ret : Z) :
  write_offsets_ordered c ->
  write_buffer_append_offset c < SIZE_MODULUS ->
  write_buffer_send_offset c < write_buffer_append_offset c ->
  send_cls w c
    (buffer_slice (write_buffer c) (write_buffer_send_offset c)
       (write_buffer_append_offset c - write_buffer_send_offset c))
    (write_buffer_append_offset c - write_buffer_send_offset c) = ret ->
  0 <= ret <= write_buffer_append_offset c - write_buffer_send_offset c ->
  exists c1,
    flush_write_buffer w c = inr c1
    /\ write_buffer_append_offset c1 - write_buffer_send_offset c1
       = write_buffer_append_offset c - write_buffer_send_offset c - ret
    /\ buffer_slice (write_buffer c1) (write_buffer_send_offset c1)
         (write_buffer_append_offset c1 - write_buffer_send_offset c1)
       = drop (Z.to_nat ret)
           (buffer_slice (write_buffer c) (write_buffer_send_offset c)
              (write_buffer_append_offset c - write_buffer_send_offset c))
    /\ (ret = write_buffer_append_offset c - write_buffer_send_offset c ->
        write_buffer_send_offset c1 = 0 /\ write_buffer_append_offset c1 = 0)
    /\ (ret < write_buffer_append_offset c - write_buffer_send_offset c ->
        write_buffer_send_offset c1 = write_buffer_send_offset c + ret
        /\ write_buffer_append_offset c1 = write_buffer_append_offset c)
    /\ state c1 = state c /\ calls c1 = calls c.
Proof.
  intros Hord Hrange Hpending Hsend Hret.
  unfold write_offsets_ordered in Hord.
  unfold flush_write_buffer.
  rewrite size_sub_small by lia.
  destruct (Z.ltb_spec 0 (write_buffer_append_offset c
                          - write_buffer_send_offset c)); [| lia].
  rewrite Hsend.
  destruct (Z.ltb_spec ret 0); [lia |].
  cbn [write_buffer_append_offset write_buffer_send_offset
       set_write_buffer_send_offset].
  rewrite size_add_small by lia. rewrite size_sub_small by lia.
  destruct (Z.eqb_spec (write_buffer_append_offset c
                        - (write_buffer_send_offset c + ret)) 0) as [Hall|Hpart].
  - eexists. split; [reflexivity |]. cbn.
    assert (Hr : ret = write_buffer_append_offset c
                       - write_buffer_send_offset c) by lia.
    split; [lia |]. split.
    + rewrite Hr. apply buffer_slice_drained.
    + split; [tauto |]. split; [lia | tauto].
  - eexists. split; [reflexivity |]. cbn.
    split; [lia |]. split.
    + rewrite <- buffer_slice_advance by lia. f_equal. lia.
    + split; [lia |]. tauto.
Qed.

Lemma flush_write_buffer_progress_witness :
  exists c1,
    flush_write_buffer
      (sample_collaborators (at_most 0) (always 5) (at_most 0) 0)
      connection_with_pending_output = inr c1
    /\ buffer_slice (write_buffer c1) (write_buffer_send_offset c1)
         (write_buffer_append_offset c1 - write_buffer_send_offset c1)
       = [9; 10; 11; 12; 13; 14; 15].
Proof.
  destruct (flush_write_buffer_progress
              (sample_collaborators (at_most 0) (always 5) (at_most 0) 0)
              connection_with_pending_output 5)
    as (c1 & Hflush & _ & Hslice & _).
  - vm_compute. split; intros H; discriminate H.
  - reflexivity.
  - reflexivity.
  - reflexivity.
  - vm_compute. split; intros H; discriminate H.
  - exists c1. split; [exact Hflush |]. rewrite Hslice. reflexivity.
Defined.

(** X14. When the decoder consumes [rv] of the available bytes, the idle
    phase returns [MHD_YES] and the bytes available afterwards are the
    available bytes without their first [rv]: both read offsets are reset to
    zero when all were consumed, and only [read_buffer_start_offset] moves,
    by [rv], otherwise.  The readiness interest is "write" and nothing is
    closed. *)
Theorem idle_consumes (w : Collaborators) (c : MHD_Connection)
    (h2s h2s' : h2_session_t) (rv : Z) :
  h2 c = Some h2s ->
  state c <> MHD_CONNECTION_CLOSED ->
  read_offsets_ordered c ->
  read_buffer_offset c < 2 ^ 63 ->
  nghttp2_session_mem_recv w h2s
    (buffer_slice (read_buffer c) (read_buffer_start_offset c)
       (read_buffer_offset c - read_buffer_start_offset c))
    (read_buffer_offset c - read_buffer_start_offset c) = (rv, h2s') ->
  0 <= rv <= read_buffer_offset c - read_buffer_start_offset c ->
  let c' := fst (h2_connection_handle_idle w c) in
  snd (h2_connection_handle_idle w c) = MHD_YES
  /\ read_buffer_offset c' - read_buffer_start_offset c'
     = read_buffer_offset c - read_buffer_start_offset c - rv
  /\ buffer_slice (read_buffer c') (read_buffer_start_offset c')
       (read_buffer_offset c' - read_buffer_start_offset c')
     = drop (Z.to_nat rv)
         (buffer_slice (read_buffer c) (read_buffer_start_offset c)
            (read_buffer_offset c - read_buffer_start_offset c))
  /\ (rv = read_buffer_offset c - read_buffer_start_offset c ->
      read_buffer_start_offset c' = 0 /\ read_buffer_offset c' = 0)
  /\ (rv < read_buffer_offset c - read_buffer_start_offset c ->
      read_buffer_start_offset c' = read_buffer_start_offset c + rv
      /\ read_buffer_offset c' = read_buffer_offset c)
  /\ event_loop_info c' = MHD_EVENT_LOOP_INFO_WRITE
  /\ state c' = state c /\ calls c' = calls c /\ h2 c' = Some h2s'.
Proof.
  intros Hh2 Hopen Hord Hrange Hrecv Hrv c'. subst c'.
  unfold read_offsets_ordered in Hord.
  assert (Hbig : 2 ^ 63 = 9223372036854775808) by reflexivity.
  assert (Havail : to_size (to_ssize (size_sub (read_buffer_offset c)
                                               (read_buffer_start_offset c)))
                   = read_buffer_offset c - read_buffer_start_offset c).
  { rewrite inlen_size_sub.
    apply size_sub_small. rewrite SIZE_MODULUS_value. lia. }
  unfold h2_connection_handle_idle.
  change (h2 (set_in_idle true c)) with (h2 c). rewrite Hh2.
  change (state (set_in_idle true c)) with (state c).
  rewrite bool_decide_eq_false_2 by exact Hopen.
  change (read_buffer_offset (set_in_idle true c)) with (read_buffer_offset c).
  change (read_buffer_start_offset (set_in_idle true c))
    with (read_buffer_start_offset c).
  change (read_buffer (set_in_idle true c)) with (read_buffer c).
  rewrite Havail, Hrecv.
  destruct (Z.ltb_spec rv 0); [lia |].
  cbn [fst snd].
  cbn [MHD_update_last_activity_ set_last_activity set_h2
       set_read_buffer_start_offset read_buffer_start_offset
       read_buffer_offset set_in_idle].
  rewrite size_add_small by (rewrite SIZE_MODULUS_value; lia).
  destruct (Z.eqb_spec (read_buffer_offset c)
              (read_buffer_start_offset c + rv)) as [Hall|Hpart].
  - destruct (negb _); cbn;
      (split; [reflexivity |]); (split; [lia |]);
      (split; [replace rv with (read_buffer_offset c
                                - read_buffer_start_offset c) by lia;
               apply buffer_slice_drained |]);
      (split; [tauto |]); (split; [lia |]); tauto.
  - destruct (negb _); cbn;
      (split; [reflexivity |]); (split; [lia |]);
      (split; [rewrite <- buffer_slice_advance by lia; f_equal; lia |]);
      (split; [lia |]); tauto.
Qed.

Lemma idle_consumes_witness :
  buffer_slice
    (read_buffer
       (fst (h2_connection_handle_idle (decoder_answers 4)
               connection_with_input)))
    (read_buffer_start_offset
       (fst (h2_connection_handle_idle (decoder_answers 4)
               connection_with_input)))
    (read_buffer_offset
       (fst (h2_connection_handle_idle (decoder_answers 4)
               connection_with_input))
     - read_buffer_start_offset
         (fst (h2_connection_handle_idle (decoder_answers 4)
                 connection_with_input)))
  = [6; 7; 8; 9; 10; 11].
Proof.
  destruct (idle_consumes (decoder_answers 4) connection_with_input
              sample_session sample_session 4 eq_refl)
    as (_ & _ & Hslice & _).
  - discriminate.
  - vm_compute. split; intros H; discriminate H.
  - reflexivity.
  - reflexivity.
  - vm_compute. split; intros H; discriminate H.
  - rewrite Hslice. reflexivity.
Defined.

(** X17. On a connection with a session [h2_queue_response] answers
    [MHD_YES] exactly when the current stream exists and the header block is
    built, and then the readiness interest is "write".  When the stream does
    not exist the connection is unchanged.  In no case does it close the
    connection or move a buffer offset. *)
Theorem h2_queue_response_result (w : Collaborators) (c : MHD_Connection)
    (h2s : h2_session_t) (status_code : Z) (response0 : MHD_Response) :
  h2 c = Some h2s ->
  exists c' r,
    h2_queue_response w c status_code response0 = Some (c', r)
    /\ (r = MHD_YES \/ r = MHD_NO)
    /\ (r = MHD_YES
        <-> exists stream,
              nghttp2_session_get_stream_user_data (session h2s)
                (current_stream_id h2s) = Some stream
              /\ h2_session_build_stream_headers w
                   (set_stream_user_data (current_stream_id h2s)
                      (bind_response stream status_code response0) h2s)
                   (bind_response stream status_code response0)
                   (MHD_increment_response_rc response0) = 0)
    /\ (r = MHD_YES -> event_loop_info c' = MHD_EVENT_LOOP_INFO_WRITE)
    /\ (nghttp2_session_get_stream_user_data (session h2s)
          (current_stream_id h2s) = None -> c' = c)
    /\ state c' = state c /\ calls c' = calls c
    /\ same_offsets_and_state c c'.
Proof.
  intros Hh2. unfold h2_queue_response. rewrite Hh2.
  destruct (nghttp2_session_get_stream_user_data (session h2s)
              (current_stream_id h2s)) as [stream|] eqn:Hs.
  - destruct (Z.eqb_spec
                (h2_session_build_stream_headers w
                   (set_stream_user_data (current_stream_id h2s)
                      (bind_response stream status_code response0) h2s)
                   (bind_response stream status_code response0)
                   (MHD_increment_response_rc response0)) 0) as [Hz|Hnz];
      cbn [negb].
    + eexists _, MHD_YES. split; [reflexivity |].
      split; [left; reflexivity |].
      split; [split; [intros _; exists stream; tauto | reflexivity] |].
      split; [reflexivity |]. split; [discriminate |].
      unfold same_offsets_and_state. cbn. tauto.
    + eexists _, MHD_NO. split; [reflexivity |].
      split; [right; reflexivity |].
      split; [split; [discriminate |] |].
      { intros (s' & Hs' & Hb). injection Hs' as <-. contradiction. }
      split; [discriminate |]. split; [discriminate |].
      unfold same_offsets_and_state. cbn. tauto.
  - exists c, MHD_NO. split; [reflexivity |].
    split; [right; reflexivity |].
    split; [split; [discriminate | intros (s' & Hs' & _); discriminate] |].
    split; [discriminate |]. split; [reflexivity |].
    unfold same_offsets_and_state. tauto.
Qed.

Lemma h2_queue_response_result_witness :
  exists c',
    h2_queue_response (session_encodes 0)
      (connection_with_stream (sample_stream (Some "GET"%string)))
      200 sample_response
    = Some (c', MHD_YES)
    /\ event_loop_info c' = MHD_EVENT_LOOP_INFO_WRITE.
Proof.
  destruct (h2_queue_response_result (session_encodes 0)
              (connection_with_stream (sample_stream (Some "GET"%string)))
              (session_with_stream (sample_stream (Some "GET"%string)))
              200 sample_response eq_refl)
    as (c' & r & Hq & _ & Hiff & Hwrite & _).
  assert (Hr : r = MHD_YES).
  { apply Hiff. exists (sample_stream (Some "GET"%string)).
    split; reflexivity. }
  subst r. exists c'. split; [exact Hq | apply Hwrite; reflexivity].
Defined.

(** X18. When the current stream exists, [h2_queue_response] leaves it
    bound to the response with one reference more and to the status code,
    also when the header block cannot be built; the stream keeps its id and
    its method, and every other stream and the rest of the session are as
    they were. *)
Theorem h2_queue_response_binding (w : Collaborators) (c : MHD_Connection)
    (h2s : h2_session_t) (stream : h2_stream_t) (status_code : Z)
    (response0 : MHD_Response) :
  h2 c = Some h2s ->
  nghttp2_session_get_stream_user_data (session h2s) (current_stream_id h2s)
  = Some stream ->
  exists c' r h2s' stream',
    h2_queue_response w c status_code response0 = Some (c', r)
    /\ h2 c' = Some h2s'
    /\ nghttp2_session_get_stream_user_data (session h2s')
         (current_stream_id h2s) = Some stream'
    /\ response stream'
       = Some {| total_size := total_size response0;
                 reference_count := reference_count response0 + 1 |}
    /\ response_code stream' = status_code
    /\ stream_id stream' = stream_id stream
    /\ method stream' = method stream
    /\ (forall id, id <> current_stream_id h2s ->
          nghttp2_session_get_stream_user_data (session h2s') id
          = nghttp2_session_get_stream_user_data (session h2s) id)
    /\ current_stream_id h2s' = current_stream_id h2s
    /\ accepted_max h2s' = accepted_max h2s
    /\ nghttp2_session_want_read (session h2s')
       = nghttp2_session_want_read (session h2s)
    /\ nghttp2_session_want_write (session h2s')
       = nghttp2_session_want_write (session h2s).
Proof.
  intros Hh2 Hs. unfold h2_queue_response. rewrite Hh2, Hs.
  set (stream' := bind_response stream status_code response0).
  set (h2s' := set_stream_user_data (current_stream_id h2s) stream' h2s).
  assert (Hfacts :
            nghttp2_session_get_stream_user_data (session h2s')
              (current_stream_id h2s) = Some stream'
            /\ response stream'
               = Some {| total_size := total_size response0;
                         reference_count := reference_count response0 + 1 |}
            /\ response_code stream' = status_code
            /\ stream_id stream' = stream_id stream
            /\ method stream' = method stream
            /\ (forall id, id <> current_stream_id h2s ->
                  nghttp2_session_get_stream_user_data (session h2s') id
                  = nghttp2_session_get_stream_user_data (session h2s) id)
            /\ current_stream_id h2s' = current_stream_id h2s
            /\ accepted_max h2s' = accepted_max h2s
            /\ nghttp2_session_want_read (session h2s')
               = nghttp2_session_want_read (session h2s)
            /\ nghttp2_session_want_write (session h2s')
               = nghttp2_session_want_write (session h2s)).
  { unfold nghttp2_session_get_stream_user_data, h2s', stream',
      bind_response. cbn [session set_stream_user_data stream_user_data].
    split; [apply lookup_insert_eq |].
    destruct (body_not_allowed _ _); cbn;
      (repeat split; try reflexivity);
      intros id Hid; apply lookup_insert_ne; congruence. }
  destruct (negb _); eexists _, _, h2s', stream';
    (split; [reflexivity |]); (split; [reflexivity |]); exact Hfacts.
Qed.

Lemma h2_queue_response_binding_witness :
  exists c' r h2s' stream',
    h2_queue_response (session_encodes 0)
      (connection_with_stream (sample_stream (Some "GET"%string)))
      404 sample_response
    = Some (c', r)
    /\ h2 c' = Some h2s'
    /\ nghttp2_session_get_stream_user_data (session h2s') 7 = Some stream'
    /\ response stream'
       = Some {| total_size := 100; reference_count := 2 |}
    /\ response_code stream' = 404.
Proof.
  destruct (h2_queue_response_binding (session_encodes 0)
              (connection_with_stream (sample_stream (Some "GET"%string)))
              (session_with_stream (sample_stream (Some "GET"%string)))
              (sample_stream (Some "GET"%string)) 404 sample_response
              eq_refl eq_refl)
    as (c' & r & h2s' & stream' & Hq & Hh2 & Hs & Hresp & Hcode & _).
  exists c', r, h2s', stream'. repeat split; assumption.
Defined.

Lemma h2_set_h2_callbacks_failure
    (h2_session_create : MHD_Connection -> option h2_session_t)
    (selected : protocol_fields) (c : MHD_Connection) :
  h2_session_create c = None ->
  state (snd (h2_set_h2_callbacks h2_session_create selected c))
  = MHD_CONNECTION_CLOSED
  /\ h2 (snd (h2_set_h2_callbacks h2_session_create selected c)) = None
  /\ calls (snd (h2_set_h2_callbacks h2_session_create selected c))
     = calls c ++ [connection_closed MHD_REQUEST_TERMINATED_WITH_ERROR].
Proof.
  intros Hnone. unfold h2_set_h2_callbacks. rewrite Hnone.
  destruct c. cbn. tauto.
Qed.

(** X19. [h2_set_h2_callbacks] installs the three HTTP/2 callbacks, version
    2.0 and keep-alive, and sets the readiness interest to "write", whether
    or not the session can be created.  With a session the connection is
    otherwise as it was.  Without one it is closed once, with the reason
    "error", and is terminal: no later phase reopens it or closes it
    again. *)
Theorem h2_set_h2_callbacks_outcome
    (h2_session_create : MHD_Connection -> option h2_session_t)
    (selected : protocol_fields) (c : MHD_Connection) :
  fst (h2_set_h2_callbacks h2_session_create selected c)
  = {| version := Some MHD_HTTP_VERSION_2_0;
       http_version := HTTP_VERSION 2 0;
       keepalive := MHD_CONN_USE_KEEPALIVE;
       handle_read_cls := h2_callback read_phase;
       handle_idle_cls := h2_callback idle_phase;
       handle_write_cls := h2_callback write_phase |}
  /\ event_loop_info (snd (h2_set_h2_callbacks h2_session_create selected c))
     = MHD_EVENT_LOOP_INFO_WRITE
  /\ (forall s, h2_session_create c = Some s ->
        snd (h2_set_h2_callbacks h2_session_create selected c)
        = set_event_loop_info MHD_EVENT_LOOP_INFO_WRITE (set_h2 (Some s) c))
  /\ (h2_session_create c = None ->
      calls (snd (h2_set_h2_callbacks h2_session_create selected c))
      = calls c ++ [connection_closed MHD_REQUEST_TERMINATED_WITH_ERROR]
      /\ forall steps,
           Forall (fun c' =>
                     state c' = MHD_CONNECTION_CLOSED /\ h2 c' = None
                     /\ closures (calls c') = (closures (calls c) + 1)%nat)
             (states_after steps
                (snd (h2_set_h2_callbacks h2_session_create selected c)))).
Proof.
  split; [reflexivity |]. split; [reflexivity |]. split.
  - intros s Hs. unfold h2_set_h2_callbacks. rewrite Hs. reflexivity.
  - intros Hnone.
    destruct (h2_set_h2_callbacks_failure h2_session_create selected c Hnone)
      as (Hst & Hh2 & Hcalls).
    split; [exact Hcalls |]. intros steps.
    generalize dependent (snd (h2_set_h2_callbacks h2_session_create selected c)).
    intros c0 Hst Hh2 Hcalls.
    assert (Hcount : closures (calls c0) = (closures (calls c) + 1)%nat).
    { rewrite Hcalls, closures_app. reflexivity. }
    apply (Forall_impl
             (fun c' => same_but_calls c0 c'
                        /\ closures (calls c') = closures (calls c0))).
    + apply (states_after_closed steps c0 c0); try assumption;
        try reflexivity.
      unfold same_but_calls. destruct c0; reflexivity.
    + intros c' [Hsame Hcl].
      destruct (same_but_calls_fields c0 c' Hsame) as [Hs1 Hs2].
      split; [congruence |]. split; [congruence |]. congruence.
Qed.

Example h2_set_h2_callbacks_without_session :
  state (snd (h2_set_h2_callbacks (fun _ => None) unselected
                (set_h2 None (sample_connection 20 0))))
  = MHD_CONNECTION_CLOSED
  /\ event_loop_info
       (snd (h2_set_h2_callbacks (fun _ => None) unselected
               (set_h2 None (sample_connection 20 0))))
     = MHD_EVENT_LOOP_INFO_WRITE.
Proof. split; reflexivity. Qed.
